(** * Verification of the OAK camera worker (src/worker.py)

    A shallow embedding of [WorkerManager], [CapturedData] and [Worker]:
    the worker thread is a small-step machine whose steps are segments of
    [Worker.run] / [Worker._pipeline_loop], written in a state-and-exception
    monad over the fields of the [Worker] object; the supervisor thread, the
    consumers' accessor coroutines and [stop] are the other events of the
    interleaving. *)

From Stdlib Require Import ZArith List Bool String Lia.
Import ListNotations.
Open Scope Z_scope.

(** ** Module constants *)

Definition MAX_PIPELINE_FAILURES : Z := 3.
Definition MAX_GRPC_MESSAGE_BYTE_COUNT : Z := 4194304.

(** ** Python exceptions

    [except Exception] catches the instances of [Exception]; [KeyboardInterrupt]
    and [SystemExit] derive from [BaseException] only. *)

Inductive exn : Type :=
| RuntimeError (msg : string)   (* depthai / depthai_sdk failures *)
| cv2_error                     (* cv2.error *)
| IndexError                    (* numpy: too many indices for array *)
| KeyboardInterrupt
| SystemExit.

Definition isinstance_Exception (e : exn) : bool :=
  match e with
  | RuntimeError _ | cv2_error | IndexError => true
  | KeyboardInterrupt | SystemExit => false
  end.

Inductive outcome (A : Type) : Type :=
| Normal (a : A)
| Raised (e : exn).
Arguments Normal {A} a.
Arguments Raised {A} e.

(** ** numpy arrays

    An array is its shape, the size of one item and the items by index
    (a strided view is again such a triple). *)

Record ndarray : Type := mk_ndarray {
  shape : list Z;
  itemsize : Z;
  item : list Z -> Z
}.

Definition ndim (a : ndarray) : nat := List.length (shape a).
Definition size (a : ndarray) : Z := fold_right Z.mul 1 (shape a).
Definition nbytes (a : ndarray) : Z := size a * itemsize a.

Fixpoint shape_eqb (s1 s2 : list Z) : bool :=
  match s1, s2 with
  | [], [] => true
  | x :: s1', y :: s2' => (x =? y) && shape_eqb s1' s2'
  | _, _ => false
  end.

(** Length of [x[::2]] for an axis of length [n]. *)
Definition step2_len (n : Z) : Z := (n + 1) / 2.

(** [arr[::2, ::2, :]]: every other row and column, all of the third axis.
    Three index expressions on an array of fewer dimensions raise [IndexError]. *)
Definition slice_2_2_all (arr : ndarray) : outcome ndarray :=
  match shape arr with
  | h :: w :: c :: rest =>
      Normal {| shape := step2_len h :: step2_len w :: c :: rest;
                itemsize := itemsize arr;
                item := fun idx =>
                          match idx with
                          | i :: j :: ks => item arr (2 * i :: 2 * j :: ks)
                          | _ => item arr idx
                          end |}
  | _ => Raised IndexError
  end.

(** ** CapturedData, packets *)

(** A reading of [time.time()]; it is stored, never computed with. *)
Definition timestamp : Type := Z.

Record CapturedData : Type := mk_CapturedData {
  np_array : ndarray;
  captured_at : timestamp
}.

Record DisparityDepthPacket : Type := { frame : ndarray }.
Record PointcloudPacket : Type := { points : ndarray }.

(** ** WorkerManager *)

Record WorkerManager : Type := mk_WorkerManager {
  needs_reconfigure : bool;
  running : bool;
  reconfigure_calls : nat   (* ghost: how often [self.reconfigure()] was called *)
}.

Definition WorkerManager_init : WorkerManager :=
  {| needs_reconfigure := false; running := true; reconfigure_calls := 0 |}.

(** One iteration of the [while self.running] loop of [WorkerManager.run],
    run from its loop test without another thread in between (the thread has
    returned once [running] is false). *)
Definition WorkerManager_run_iteration (m : WorkerManager) : WorkerManager :=
  if running m then
    if needs_reconfigure m then
      {| needs_reconfigure := needs_reconfigure m;
         running := false;
         reconfigure_calls := S (reconfigure_calls m) |}
    else m
  else m.

(** Lines 39-43 alone: the flag test with the call and the store that follow
    it, for a thread that has passed the loop test. *)
Definition WorkerManager_flag_test (m : WorkerManager) : WorkerManager :=
  if needs_reconfigure m then
    {| needs_reconfigure := needs_reconfigure m;
       running := false;
       reconfigure_calls := S (reconfigure_calls m) |}
  else m.

Definition WorkerManager_stop (m : WorkerManager) : WorkerManager :=
  {| needs_reconfigure := needs_reconfigure m;
     running := false;
     reconfigure_calls := reconfigure_calls m |}.

(** ** Worker *)

(** The logger calls that carry a value of the program. *)
Inductive log_entry : Type :=
| LogFailureCount (failures : Z)        (* debug: Pipeline loop failure count *)
| LogReachedMaxFailures                 (* error: Reached ... max failures *)
| LogShapeMismatch (s : list Z)         (* debug: Pipeline output shape mismatch *)
| LogPcdSubsampling (num_bytes : Z)     (* warn: Subsampling data 0.5x *)
| LogExitedThread.                      (* info: Stopped and exited worker thread *)

(** [frame_rate] and [logger] are only handed on to the SDK and are left out. *)
Record Worker : Type := mk_Worker {
  height : Z;
  width : Z;
  user_wants_color : bool;
  user_wants_depth : bool;
  color_image : option CapturedData;
  depth_map : option CapturedData;
  pcd : option CapturedData;
  get_pcd_was_invoked : bool;
  manager : WorkerManager;
  log : list log_entry;
  supervisor_at_flag_test : bool   (* ghost: the supervisor thread has passed
                                      [while self.running] and stands before
                                      [if self.needs_reconfigure] *)
}.

(** [Worker.__init__] *)
Definition Worker_init (h w : Z) (wants_color wants_depth : bool) : Worker :=
  {| height := h; width := w;
     user_wants_color := wants_color; user_wants_depth := wants_depth;
     color_image := None; depth_map := None; pcd := None;
     get_pcd_was_invoked := false;
     manager := WorkerManager_init;
     log := [];
     supervisor_at_flag_test := false |}.

Definition set_color_image (v : option CapturedData) (w : Worker) : Worker :=
  mk_Worker (height w) (width w) (user_wants_color w) (user_wants_depth w)
            v (depth_map w) (pcd w) (get_pcd_was_invoked w) (manager w) (log w)
            (supervisor_at_flag_test w).
Definition set_depth_map (v : option CapturedData) (w : Worker) : Worker :=
  mk_Worker (height w) (width w) (user_wants_color w) (user_wants_depth w)
            (color_image w) v (pcd w) (get_pcd_was_invoked w) (manager w) (log w)
            (supervisor_at_flag_test w).
Definition set_pcd (v : option CapturedData) (w : Worker) : Worker :=
  mk_Worker (height w) (width w) (user_wants_color w) (user_wants_depth w)
            (color_image w) (depth_map w) v (get_pcd_was_invoked w) (manager w) (log w)
            (supervisor_at_flag_test w).
Definition set_get_pcd_was_invoked (v : bool) (w : Worker) : Worker :=
  mk_Worker (height w) (width w) (user_wants_color w) (user_wants_depth w)
            (color_image w) (depth_map w) (pcd w) v (manager w) (log w)
            (supervisor_at_flag_test w).
Definition set_manager (v : WorkerManager) (w : Worker) : Worker :=
  mk_Worker (height w) (width w) (user_wants_color w) (user_wants_depth w)
            (color_image w) (depth_map w) (pcd w) (get_pcd_was_invoked w) v (log w)
            (supervisor_at_flag_test w).
Definition add_log (e : log_entry) (w : Worker) : Worker :=
  mk_Worker (height w) (width w) (user_wants_color w) (user_wants_depth w)
            (color_image w) (depth_map w) (pcd w) (get_pcd_was_invoked w) (manager w)
            (log w ++ [e]) (supervisor_at_flag_test w).
Definition set_supervisor_at_flag_test (v : bool) (w : Worker) : Worker :=
  mk_Worker (height w) (width w) (user_wants_color w) (user_wants_depth w)
            (color_image w) (depth_map w) (pcd w) (get_pcd_was_invoked w) (manager w)
            (log w) v.

(** ** The monad of the worker thread: state [Worker], exceptions [exn] *)

Definition M (A : Type) : Type := Worker -> outcome A * Worker.

Definition ret {A} (a : A) : M A := fun w => (Normal a, w).
Definition raise {A} (e : exn) : M A := fun w => (Raised e, w).
Definition bind {A B} (m : M A) (k : A -> M B) : M B :=
  fun w => match m w with
           | (Normal a, w') => k a w'
           | (Raised e, w') => (Raised e, w')
           end.
Definition getf {A} (f : Worker -> A) : M A := fun w => (Normal (f w), w).
Definition modify (f : Worker -> Worker) : M unit := fun w => (Normal tt, f w).
Definition lift {A} (o : outcome A) : M A := fun w => (o, w).

Declare Scope worker_scope.
Delimit Scope worker_scope with worker.
Notation "x <- m ;; k" := (bind m (fun x => k))
  (at level 61, m at next level, right associativity) : worker_scope.
Notation "m ;;; k" := (bind m (fun _ => k))
  (at level 61, right associativity) : worker_scope.
Open Scope worker_scope.

(** [try: body  except Exception as e: handler e] *)
Definition try_except_Exception {A} (body : M A) (handler : exn -> M A) : M A :=
  fun w => match body w with
           | (Normal a, w') => (Normal a, w')
           | (Raised e, w') =>
               if isinstance_Exception e then handler e w' else (Raised e, w')
           end.

(** [for x in xs: f x] *)
Fixpoint for_each {A} (f : A -> M unit) (xs : list A) : M unit :=
  match xs with
  | [] => ret tt
  | x :: xs' => f x ;;; for_each f xs'
  end.

(** ** The device SDK as seen by the worker *)

(** The pipeline under construction inside [with OakCamera() as oak]. *)
Record OakCamera : Type := mk_OakCamera {
  color_component : bool;        (* oak.camera('color', ...) linked to the PREVIEW stream *)
  stereo_component : bool;       (* oak.stereo(...) *)
  stereo_aligned : bool;         (* stereo.config_stereo(align=color) *)
  pointcloud_component : bool;   (* oak.create_pointcloud(stereo, color) *)
  depth_callback : bool;         (* oak.callback(stereo, callback=self._set_depth_map) *)
  pcd_callback : bool            (* oak.callback(pcc, callback=self._set_pcd) *)
}.

Definition OakCamera_new : OakCamera :=
  mk_OakCamera false false false false false false.

(** A message for which [oak.poll()] invokes a registered callback. *)
Inductive oak_message : Type :=
| DepthMessage (p : DisparityDepthPacket)
| PointcloudMessage (p : PointcloudPacket).

(** What the device, the SDK and the clock answer during one step of the
    worker thread. *)
Record device_io : Type := mk_device_io {
  sdk_error : option exn;                   (* raised by the SDK calls of a build, start or close segment *)
  preview_get : outcome (option ndarray);   (* rgb_queue.tryGet() then getCvFrame(); None: queue empty *)
  clock : timestamp;                        (* time.time() in _set_color_image *)
  polled : list (oak_message * timestamp);  (* callbacks of oak.poll(), each with its time.time() *)
  poll_error : option exn                   (* raised by oak.poll() after these callbacks *)
}.

Definition sdk_call (err : option exn) : M unit :=
  match err with
  | Some e => raise e
  | None => ret tt
  end.

(** Where the worker thread stands in [run] / [_pipeline_loop]; the locals of
    [_pipeline_loop] live in the constructor arguments. *)
Inductive phase : Type :=
| RunLoop                                   (* run: at [while self.manager.running] *)
| Building (failures : Z)                   (* after [failures = 0], entering the [with] block *)
| Configured (failures : Z) (oak : OakCamera)   (* after _configure_pc *)
| LoopHead (failures : Z) (oak : OakCamera) (previous_get_pcd_was_invoked : bool)
| LoopBody (failures : Z) (oak : OakCamera) (previous_get_pcd_was_invoked : bool)
| Stopped                                   (* run has returned *)
| Crashed (e : exn).                        (* run was left by an exception *)

Record system : Type := mk_system {
  worker : Worker;
  pc : phase
}.

Inductive event : Type :=
| WorkerStep (io : device_io)   (* the worker thread runs its next segment *)
| ManagerTick                   (* the supervisor runs on to its next loop test *)
| GetPcdCalled                  (* a consumer enters get_pcd *)
| StopCalled                    (* Worker.stop() *)
| ManagerStep.                  (* the supervisor runs its next step only *)

(** Result of an accessor coroutine: still awaiting, or returned. *)
Inductive poll_result : Type :=
| Pending
| Resolved (r : option CapturedData).

(** Instances of the transform collaborator on which the model can be run:
    channel reversal, and a nearest-neighbour resize to [dsize = (w, h)]. *)
Definition cvtColor_reverse_channels (src : ndarray) : option ndarray :=
  match shape src with
  | [h; w; 3] =>
      Some {| shape := [h; w; 3];
              itemsize := itemsize src;
              item := fun idx =>
                        match idx with
                        | [i; j; k] => item src [i; j; 2 - k]
                        | _ => item src idx
                        end |}
  | _ => None
  end.

Definition resize_nearest (src : ndarray) (dsize : Z * Z) : option ndarray :=
  let (w, h) := dsize in
  match shape src with
  | rows :: cols :: channels =>
      if (0 <? w) && (0 <? h) && (0 <? rows) && (0 <? cols) then
        Some {| shape := h :: w :: channels;
                itemsize := itemsize src;
                item := fun idx =>
                          match idx with
                          | i :: j :: ks => item src (i * rows / h :: j * cols / w :: ks)
                          | _ => item src idx
                          end |}
      else None
  | _ => None
  end.

Section WorkerThread.

(** The transform collaborator (OpenCV); [None] stands for a raised [cv2.error]. *)
Variable cv2_cvtColor_BGR2RGB : ndarray -> option ndarray.
Variable cv2_resize : ndarray -> Z * Z -> option ndarray.

Definition cv2_call (r : option ndarray) : M ndarray :=
  match r with
  | Some a => ret a
  | None => raise cv2_error
  end.

(** *** Publishing *)

Definition _set_color_image (arr : ndarray) (now : timestamp) : M unit :=
  modify (set_color_image (Some (mk_CapturedData arr now))).

Definition _set_depth_map (packet : DisparityDepthPacket) (now : timestamp) : M unit :=
  h <- getf height ;;
  w <- getf width ;;
  let arr := frame packet in
  arr <- (if negb (shape_eqb (shape arr) [h; w]) then
            modify (add_log (LogShapeMismatch (shape arr))) ;;;
            cv2_call (cv2_resize arr (w, h))
          else ret arr) ;;
  modify (set_depth_map (Some (mk_CapturedData arr now))).

Definition _set_pcd (packet : PointcloudPacket) (now : timestamp) : M unit :=
  let arr := points packet in
  let num_bytes := nbytes (points packet) in
  arr <- (if num_bytes >? MAX_GRPC_MESSAGE_BYTE_COUNT then
            modify (add_log (LogPcdSubsampling num_bytes)) ;;;
            lift (slice_2_2_all arr)
          else ret arr) ;;
  modify (set_pcd (Some (mk_CapturedData arr now))).

(** *** Building the pipeline *)

Definition _configure_color (oak : OakCamera) : M OakCamera :=
  wants_color <- getf user_wants_color ;;
  if wants_color then
    ret (mk_OakCamera true (stereo_component oak) (stereo_aligned oak)
                      (pointcloud_component oak) (depth_callback oak) (pcd_callback oak))
  else ret oak.

Definition _configure_stereo (oak : OakCamera) : M OakCamera :=
  wants_depth <- getf user_wants_depth ;;
  if wants_depth then
    wants_color <- getf user_wants_color ;;
    ret (mk_OakCamera (color_component oak) true wants_color
                      (pointcloud_component oak) true (pcd_callback oak))
  else ret oak.

Definition _configure_pc (oak : OakCamera) : M OakCamera :=
  wants_depth <- getf user_wants_depth ;;
  invoked <- getf get_pcd_was_invoked ;;
  if wants_depth && invoked then
    ret (mk_OakCamera (color_component oak) (stereo_component oak) (stereo_aligned oak)
                      true (depth_callback oak) true)
  else ret oak.

(** *** One round of the capture loop *)

Definition _handle_color_output (io : device_io) : M unit :=
  wants_color <- getf user_wants_color ;;
  if wants_color then
    rgb_frame_data <- lift (preview_get io) ;;
    match rgb_frame_data with
    | Some bgr_frame =>
        rgb_frame <- cv2_call (cv2_cvtColor_BGR2RGB bgr_frame) ;;
        _set_color_image rgb_frame (clock io)
    | None => ret tt
    end
  else ret tt.

Definition invoke_callback (oak : OakCamera) (m : oak_message * timestamp) : M unit :=
  match fst m with
  | DepthMessage p => if depth_callback oak then _set_depth_map p (snd m) else ret tt
  | PointcloudMessage p => if pcd_callback oak then _set_pcd p (snd m) else ret tt
  end.

Definition oak_poll (oak : OakCamera) (io : device_io) : M unit :=
  for_each (invoke_callback oak) (polled io) ;;;
  sdk_call (poll_error io).

Definition _handle_depth_and_pcd_output (oak : OakCamera) (io : device_io) : M unit :=
  wants_depth <- getf user_wants_depth ;;
  if wants_depth then oak_poll oak io else ret tt.

(** *** _pipeline_loop, segment by segment *)

(** The [except Exception as e] clause, with the local [failures]. *)
Definition except_clause (failures : Z) (e : exn) : M unit :=
  let failures := failures + 1 in
  if failures >? MAX_PIPELINE_FAILURES then
    modify (fun w => set_manager
                       (mk_WorkerManager true (running (manager w))
                                         (reconfigure_calls (manager w))) w) ;;;
    modify (add_log LogReachedMaxFailures)
  else
    modify (add_log (LogFailureCount failures)).

(** A segment of the [try] block: an [Exception] ends [_pipeline_loop] through
    the [except] clause and control is back in [run]. *)
Definition in_try (failures : Z) (body : M phase) : M phase :=
  try_except_Exception body (fun e => except_clause failures e ;;; ret RunLoop).

(** Lines 120-123: open the camera and configure the components. *)
Definition build_segment (failures : Z) (io : device_io) : M phase :=
  sdk_call (sdk_error io) ;;;
  oak <- _configure_color OakCamera_new ;;
  oak <- _configure_stereo oak ;;
  oak <- _configure_pc oak ;;
  ret (Configured failures oak).

(** Lines 124-125: snapshot the demand flag, start the pipeline. *)
Definition start_segment (failures : Z) (oak : OakCamera) (io : device_io) : M phase :=
  previous_get_pcd_was_invoked <- getf get_pcd_was_invoked ;;
  sdk_call (sdk_error io) ;;;
  ret (LoopHead failures oak previous_get_pcd_was_invoked).

(** Lines 126-128: the loop test and the restart test; leaving the loop leaves
    the [with] block, which closes the camera. *)
Definition head_segment (failures : Z) (oak : OakCamera) (prev : bool)
                        (io : device_io) : M phase :=
  is_running <- getf (fun w => running (manager w)) ;;
  if is_running then
    invoked <- getf get_pcd_was_invoked ;;
    if negb (Bool.eqb prev invoked) then
      sdk_call (sdk_error io) ;;; ret RunLoop
    else ret (LoopBody failures oak prev)
  else
    sdk_call (sdk_error io) ;;; ret RunLoop.

(** Lines 129-130. *)
Definition body_segment (failures : Z) (oak : OakCamera) (prev : bool)
                        (io : device_io) : M phase :=
  _handle_color_output io ;;;
  _handle_depth_and_pcd_output oak io ;;;
  ret (LoopHead failures oak prev).

(** [run]: an exception that [_pipeline_loop] lets through leaves [run]. *)
Definition resume (m : M phase) (w : Worker) : system :=
  match m w with
  | (Normal p, w') => mk_system w' p
  | (Raised e, w') => mk_system (add_log LogExitedThread w') (Crashed e)
  end.

Definition worker_step (io : device_io) (s : system) : system :=
  match pc s with
  | RunLoop =>
      if running (manager (worker s)) then mk_system (worker s) (Building 0)
      else mk_system (add_log LogExitedThread (worker s)) Stopped
  | Building f => resume (in_try f (build_segment f io)) (worker s)
  | Configured f oak => resume (in_try f (start_segment f oak io)) (worker s)
  | LoopHead f oak prev => resume (in_try f (head_segment f oak prev io)) (worker s)
  | LoopBody f oak prev => resume (in_try f (body_segment f oak prev io)) (worker s)
  | Stopped => s
  | Crashed _ => s
  end.

(** *** The other threads and the consumers *)

(** get_pcd, lines 105-106. *)
Definition mark_get_pcd (w : Worker) : Worker :=
  if negb (get_pcd_was_invoked w) then set_get_pcd_was_invoked true w else w.

(** Worker.stop *)
Definition stop (w : Worker) : Worker :=
  set_manager (WorkerManager_stop (manager w)) w.

(** The supervisor thread runs its next step: the loop test of
    [WorkerManager.run] (line 37) or, having passed it, the flag test with
    what follows (lines 39-43); other threads can run between the two. A
    thread that finds [running] false at the loop test has returned. *)
Definition supervisor_step (w : Worker) : Worker :=
  if supervisor_at_flag_test w then
    set_supervisor_at_flag_test false
      (set_manager (WorkerManager_flag_test (manager w)) w)
  else if running (manager w) then set_supervisor_at_flag_test true w
  else w.

(** The supervisor thread runs on to its next loop test without another
    thread in between: a whole iteration from the loop test, or the rest of
    the iteration it is in. *)
Definition supervisor_tick (w : Worker) : Worker :=
  if supervisor_at_flag_test w then supervisor_step w
  else set_manager (WorkerManager_run_iteration (manager w)) w.

Definition step (ev : event) (s : system) : system :=
  match ev with
  | WorkerStep io => worker_step io s
  | ManagerTick => mk_system (supervisor_tick (worker s)) (pc s)
  | GetPcdCalled => mk_system (mark_get_pcd (worker s)) (pc s)
  | StopCalled => mk_system (stop (worker s)) (pc s)
  | ManagerStep => mk_system (supervisor_step (worker s)) (pc s)
  end.

Definition run_events (evs : list event) (s : system) : system :=
  fold_left (fun s ev => step ev s) evs s.

(** The worker once constructed and started. *)
Definition started (h w : Z) (wants_color wants_depth : bool) : system :=
  mk_system (Worker_init h w wants_color wants_depth) RunLoop.

(** *** Accessors

    [while not self.<slot> and self.manager.running: await asyncio.sleep(1)]
    then [return self.<slot>]; [obs] are the states of the worker found at the
    successive tests of the loop, one polling interval apart. *)
Fixpoint await_slot (slot : Worker -> option CapturedData) (obs : list Worker) : poll_result :=
  match obs with
  | [] => Pending
  | w :: later =>
      match slot w with
      | None => if running (manager w) then await_slot slot later else Resolved (slot w)
      | Some _ => Resolved (slot w)
      end
  end.

Definition get_color_image (obs : list Worker) : poll_result := await_slot color_image obs.
Definition get_depth_map (obs : list Worker) : poll_result := await_slot depth_map obs.
(** get_pcd after its lines 105-106, which are [mark_get_pcd]. *)
Definition get_pcd_await (obs : list Worker) : poll_result := await_slot pcd obs.

(** *** Scenarios *)

(** A round in which the device has nothing to deliver. *)
Definition quiet_io : device_io := mk_device_io None (Normal None) 0 [] None.

(** A round in which reading the device fails with [e]. *)
Definition failing_io (e : exn) : device_io :=
  mk_device_io None (Raised e) 0 [] (Some e).

(** One pipeline lifetime that is built, started, and fails with [e] in its
    first capture round. *)
Definition failing_attempt (e : exn) : list event :=
  [WorkerStep quiet_io; WorkerStep quiet_io; WorkerStep quiet_io; WorkerStep quiet_io;
   WorkerStep (failing_io e)].

Fixpoint failing_attempts (e : exn) (n : nat) : list event :=
  match n with
  | O => []
  | S n' => failing_attempt e ++ failing_attempts e n'
  end.

(** The local [failures] of the running [_pipeline_loop], if any. *)
Definition pc_failures (p : phase) : Z :=
  match p with
  | Building f | Configured f _ | LoopHead f _ _ | LoopBody f _ _ => f
  | RunLoop | Stopped | Crashed _ => 0
  end.

(** The exceptions that the device and the SDK raise in a step. *)
Definition io_exceptions (io : device_io) : list exn :=
  match sdk_error io with Some e => [e] | None => [] end ++
  match preview_get io with Raised e => [e] | Normal _ => [] end ++
  match poll_error io with Some e => [e] | None => [] end.

(** All device errors of a step are instances of [Exception]. *)
Definition device_errors_are_Exceptions (io : device_io) : bool :=
  forallb isinstance_Exception (io_exceptions io).

Definition is_Crashed (p : phase) : bool :=
  match p with Crashed _ => true | _ => false end.

(** *** The attribute store of a publish, step by step

    [self.<slot> = CapturedData(arr, time.time())]: the object is constructed
    in the writer, then stored into the attribute by one store. *)
Inductive micro_op : Type :=
| Construct (arr : ndarray) (now : timestamp)
| StoreAttr.

Record slot_state : Type := mk_slot_state {
  constructed : option CapturedData;   (* the writer's value under construction *)
  slot : option CapturedData           (* the attribute readers see *)
}.

Definition micro_step (s : slot_state) (op : micro_op) : slot_state :=
  match op with
  | Construct arr now => mk_slot_state (Some (mk_CapturedData arr now)) (slot s)
  | StoreAttr =>
      match constructed s with
      | Some f => mk_slot_state None (Some f)
      | None => s
      end
  end.

Definition publish_ops (p : ndarray * timestamp) : list micro_op :=
  [Construct (fst p) (snd p); StoreAttr].

Definition run_micro (ops : list micro_op) (s : slot_state) : slot_state :=
  fold_left micro_step ops s.

Definition read (s : slot_state) : option CapturedData := slot s.

Definition frame_of (p : ndarray * timestamp) : CapturedData :=
  mk_CapturedData (fst p) (snd p).

(** The last element of a list, if any. *)
Definition latest {A} (l : list A) : option A :=
  match rev l with
  | [] => None
  | x :: _ => Some x
  end.

(** A 1080p point array of float32 (x, y, z): 24883200 bytes. *)
Definition points_1080p : ndarray := mk_ndarray [1080; 1920; 3] 4 (fun _ => 0).

(** An 800p point array of float32 (x, y, z): 12288000 bytes. *)
Definition points_800p : ndarray := mk_ndarray [800; 1280; 3] 4 (fun idx => fold_right Z.add 0 idx).

(** *** Predicates of the proofs *)

(** The configuration, the demand flag and the supervisor are the same. *)
Definition same_control (w w' : Worker) : Prop :=
  height w' = height w /\ width w' = width w /\
  user_wants_color w' = user_wants_color w /\
  user_wants_depth w' = user_wants_depth w /\
  get_pcd_was_invoked w' = get_pcd_was_invoked w /\
  manager w' = manager w.

Definition keeps_control {A} (m : M A) : Prop :=
  forall w, same_control w (snd (m w)).

(** [m] preserves the property [P] of the worker, whether it returns or raises. *)
Definition preserves {A} (P : Worker -> Prop) (m : M A) : Prop :=
  forall w, P w -> P (snd (m w)).

(** The phase a segment returns is still inside the same [_pipeline_loop]
    call (same [failures]) or back in [run]. *)
Definition continues (f : Z) (p : phase) : Prop :=
  (pc_failures p = f /\ is_Crashed p = false) /\ p <> Stopped.

(** [failures] is 0 wherever the thread stands, no reconfiguration was
    requested and the replacement factory was not called. *)
Definition never_escalated (s : system) : Prop :=
  pc_failures (pc s) = 0 /\
  needs_reconfigure (manager (worker s)) = false /\
  reconfigure_calls (manager (worker s)) = 0%nat.

(** The segment of [_pipeline_loop] that the thread runs next. *)
Definition segment (p : phase) (io : device_io) : M phase :=
  match p with
  | Building f => build_segment f io
  | Configured f oak => start_segment f oak io
  | LoopHead f oak prev => head_segment f oak prev io
  | LoopBody f oak prev => body_segment f oak prev io
  | RunLoop | Stopped | Crashed _ => ret p
  end.

Definition in_pipeline_loop (p : phase) : bool :=
  match p with
  | Building _ | Configured _ _ | LoopHead _ _ _ | LoopBody _ _ _ => true
  | RunLoop | Stopped | Crashed _ => false
  end.

Definition event_errors_are_Exceptions (ev : event) : bool :=
  match ev with
  | WorkerStep io => device_errors_are_Exceptions io
  | ManagerTick | GetPcdCalled | StopCalled | ManagerStep => true
  end.

(** The pipeline [_configure_color], [_configure_stereo] and [_configure_pc]
    build for the worker [w] when the demand flag reads [requested]. *)
Definition pipeline_for (w : Worker) (requested : bool) : OakCamera :=
  mk_OakCamera (user_wants_color w)
               (user_wants_depth w)
               (user_wants_depth w && user_wants_color w)
               (user_wants_depth w && requested)
               (user_wants_depth w)
               (user_wants_depth w && requested).

(** The depth slot is empty or holds a frame of shape (height, width). *)
Definition depth_shape_ok (w : Worker) : Prop :=
  match depth_map w with
  | None => True
  | Some f => shape (np_array f) = [height w; width w]
  end.

Definition message_depth_2d (m : oak_message * timestamp) : bool :=
  match fst m with
  | DepthMessage p => Nat.eqb (ndim (frame p)) 2
  | PointcloudMessage _ => true
  end.

(** Every depth packet of the events carries a two-dimensional frame. *)
Definition event_depth_2d (ev : event) : bool :=
  match ev with
  | WorkerStep io => forallb message_depth_2d (polled io)
  | ManagerTick | GetPcdCalled | StopCalled | ManagerStep => true
  end.

Definition message_points_3d (m : oak_message * timestamp) : bool :=
  match fst m with
  | DepthMessage _ => true
  | PointcloudMessage p => Nat.leb 3 (ndim (points p))
  end.

(** Two workers that differ at most in the point-cloud slot and the log. *)
Definition agree_but_pcd (w1 w2 : Worker) : Prop :=
  height w1 = height w2 /\ width w1 = width w2 /\
  user_wants_color w1 = user_wants_color w2 /\
  user_wants_depth w1 = user_wants_depth w2 /\
  color_image w1 = color_image w2 /\
  depth_map w1 = depth_map w2 /\
  get_pcd_was_invoked w1 = get_pcd_was_invoked w2 /\
  manager w1 = manager w2.

(** Everything but the slots, the log and [needs_reconfigure] is the same. *)
Definition same_static (w w' : Worker) : Prop :=
  height w' = height w /\ width w' = width w /\
  user_wants_color w' = user_wants_color w /\
  user_wants_depth w' = user_wants_depth w /\
  get_pcd_was_invoked w' = get_pcd_was_invoked w /\
  running (manager w') = running (manager w) /\
  reconfigure_calls (manager w') = reconfigure_calls (manager w).

(** Whatever [m] raises is an instance of [Exception]. *)
Definition raises_Exceptions {A} (m : M A) : Prop :=
  forall w e w', m w = (Raised e, w') -> isinstance_Exception e = true.

(** [cv2.resize(src, (w, h))] of a two-dimensional [src] has shape (h, w). *)
Definition resize_gives_dsize : Prop :=
  forall (src dst : ndarray) (w h : Z),
    ndim src = 2%nat -> cv2_resize src (w, h) = Some dst -> shape dst = [h; w].

(** [m1] and [m2] do the same to color, depth and control, and end the same
    way, on workers that differ at most in the point-cloud slot and the log. *)
Definition related {A} (m1 m2 : M A) : Prop :=
  forall w1 w2, agree_but_pcd w1 w2 ->
    agree_but_pcd (snd (m1 w1)) (snd (m2 w2)) /\ fst (m1 w1) = fst (m2 w2).

(** Depth frames of uint16: one at the sensor size, one at 400 x 640. *)
Definition depth_frame_800p : ndarray :=
  mk_ndarray [800; 1280] 2 (fun idx => fold_right Z.add 0 idx).
Definition depth_frame_400x640 : ndarray :=
  mk_ndarray [400; 640] 2 (fun idx => fold_right Z.add 0 idx).

(** A round in which [oak.poll()] delivers the one depth frame [frm] at [now]. *)
Definition depth_round (frm : ndarray) (now : timestamp) : device_io :=
  mk_device_io None (Normal None) 0 [(DepthMessage {| frame := frm |}, now)] None.

(** A round in which [oak.poll()] delivers the one point array [pts] at [now]. *)
Definition pcd_round (pts : ndarray) (now : timestamp) : device_io :=
  mk_device_io None (Normal None) 0 [(PointcloudMessage {| points := pts |}, now)] None.

(** A colorized depth frame of uint8: 800 x 1280 with a channel axis. *)
Definition depth_frame_colorized : ndarray :=
  mk_ndarray [800; 1280; 3] 1 (fun idx => fold_right Z.add 0 idx).

(** A BGR preview frame of uint8, 400 x 640. *)
Definition preview_frame_400x640 : ndarray :=
  mk_ndarray [400; 640; 3] 1 (fun idx => fold_right Z.add 0 idx).

(** A round in which the preview queue holds [bgr] (clock [tc]) and
    [oak.poll()] delivers the depth frame [frm] at [td], then the point array
    [pts] at [tp]. *)
Definition full_round (bgr : ndarray) (tc : timestamp) (frm : ndarray) (td : timestamp)
                      (pts : ndarray) (tp : timestamp) : device_io :=
  mk_device_io None (Normal (Some bgr)) tc
               [(DepthMessage {| frame := frm |}, td);
                (PointcloudMessage {| points := pts |}, tp)] None.

(** Worker steps on a device that has nothing to deliver. *)
Definition quiet_steps (n : nat) : list event := repeat (WorkerStep quiet_io) n.

(** How many segments the worker thread has left at most once the shutdown
    signal is raised. *)
Definition steps_to_stop (p : phase) : nat :=
  match p with
  | Building _ => 4
  | Configured _ _ => 3
  | LoopBody _ _ _ => 3
  | LoopHead _ _ _ => 2
  | RunLoop => 1
  | Stopped | Crashed _ => 0
  end.

(** The number of steps of the worker thread among the events. *)
Fixpoint worker_steps (evs : list event) : nat :=
  match evs with
  | [] => 0
  | WorkerStep _ :: evs' => S (worker_steps evs')
  | _ :: evs' => worker_steps evs'
  end.

(** The factory calls made so far plus the one the supervisor can still
    make: it can while it is running, and also once it has passed its loop
    test, whatever has become of the running flag since. *)
Definition factory_calls_bound (w : Worker) : nat :=
  reconfigure_calls (manager w)
  + (if running (manager w) || supervisor_at_flag_test w then 1 else 0).

(** The property [P] of the worker survives a log line and a write of the
    supervisor or of the demand flag. *)
Definition control_closed (P : Worker -> Prop) : Prop :=
  (forall e w, P w -> P (add_log e w)) /\
  (forall m w, P w -> P (set_manager m w)) /\
  (forall b w, P w -> P (set_get_pcd_was_invoked b w)) /\
  (forall b w, P w -> P (set_supervisor_at_flag_test b w)).

(** A depth-disabled worker with nothing in the depth and point-cloud slots. *)
Definition depth_off_and_empty (w : Worker) : Prop :=
  user_wants_depth w = false /\ depth_map w = None /\ pcd w = None.

(** A color-disabled worker with nothing in the color slot. *)
Definition color_off_and_empty (w : Worker) : Prop :=
  user_wants_color w = false /\ color_image w = None.

(** The workers a consumer finds at its successive polls: the one reached
    after each of the given runs of events since the start. *)
Definition observations (h w : Z) (wants_color wants_depth : bool)
                        (runs : list (list event)) : list Worker :=
  map (fun evs => worker (run_events evs (started h w wants_color wants_depth))) runs.

(** Whether the pipeline the thread holds has the point-cloud callback. *)
Definition phase_pcd_callback (p : phase) : bool :=
  match p with
  | Configured _ oak | LoopHead _ oak _ | LoopBody _ oak _ => pcd_callback oak
  | Building _ | RunLoop | Stopped | Crashed _ => false
  end.

(** The messages of a poll that delivers the depth frames [frames] in order. *)
Definition depth_messages (frames : list (ndarray * timestamp)) : list (oak_message * timestamp) :=
  map (fun p => (DepthMessage {| frame := fst p |}, snd p)) frames.

(** A point list of 400000 float32 (x, y, z) rows: 4800000 bytes, two axes. *)
Definition points_flat : ndarray := mk_ndarray [400000; 3] 4 (fun idx => fold_right Z.add 0 idx).

(** The log line of the [finally] in [run]. *)
Definition is_exit_entry (e : log_entry) : bool :=
  match e with
  | LogExitedThread => true
  | _ => false
  end.

Definition exits_logged (w : Worker) : nat :=
  List.length (filter is_exit_entry (log w)).

(** [run] has returned, normally or by an exception. *)
Definition has_returned (p : phase) : bool :=
  match p with
  | Stopped | Crashed _ => true
  | _ => false
  end.

(** The log lines that tell of a failed pipeline lifetime or of the end of
    the thread. *)
Definition is_failure_entry (e : log_entry) : bool :=
  match e with
  | LogFailureCount _ | LogReachedMaxFailures | LogExitedThread => true
  | LogShapeMismatch _ | LogPcdSubsampling _ => false
  end.

Definition failure_logged (w : Worker) : bool :=
  existsb is_failure_entry (log w).

(** ** What a segment of the worker thread leaves untouched *)

(** The supervisor thread writes nothing but its own object. *)
Lemma supervisor_step_manager w :
  manager (supervisor_step w)
  = if supervisor_at_flag_test w then WorkerManager_flag_test (manager w) else manager w.
Proof.
  unfold supervisor_step. destruct (supervisor_at_flag_test w); [reflexivity |].
  destruct (running (manager w)); reflexivity.
Qed.

Lemma supervisor_tick_manager w :
  manager (supervisor_tick w)
  = if supervisor_at_flag_test w then WorkerManager_flag_test (manager w)
    else WorkerManager_run_iteration (manager w).
Proof.
  unfold supervisor_tick. destruct (supervisor_at_flag_test w) eqn:E; [| reflexivity].
  rewrite supervisor_step_manager, E. reflexivity.
Qed.

Lemma supervisor_step_keeps (P : Worker -> Prop) w :
  (forall m w, P w -> P (set_manager m w)) ->
  (forall b w, P w -> P (set_supervisor_at_flag_test b w)) ->
  P w -> P (supervisor_step w).
Proof.
  intros Hm Hs H. unfold supervisor_step.
  destruct (supervisor_at_flag_test w); [apply Hs, Hm, H |].
  destruct (running (manager w)); [apply Hs, H | exact H].
Qed.

Lemma supervisor_tick_keeps (P : Worker -> Prop) w :
  (forall m w, P w -> P (set_manager m w)) ->
  (forall b w, P w -> P (set_supervisor_at_flag_test b w)) ->
  P w -> P (supervisor_tick w).
Proof.
  intros Hm Hs H. unfold supervisor_tick.
  destruct (supervisor_at_flag_test w); [apply supervisor_step_keeps; assumption |].
  apply Hm, H.
Qed.

Lemma supervisor_leaves_alone w :
  let same := fun w' : Worker =>
                color_image w' = color_image w /\ depth_map w' = depth_map w /\
                pcd w' = pcd w /\ get_pcd_was_invoked w' = get_pcd_was_invoked w /\
                log w' = log w in
  same (supervisor_step w) /\ same (supervisor_tick w).
Proof.
  cbv zeta. split;
    [apply (supervisor_step_keeps
              (fun w' => color_image w' = color_image w /\ depth_map w' = depth_map w /\
                         pcd w' = pcd w /\ get_pcd_was_invoked w' = get_pcd_was_invoked w /\
                         log w' = log w))
    | apply (supervisor_tick_keeps
              (fun w' => color_image w' = color_image w /\ depth_map w' = depth_map w /\
                         pcd w' = pcd w /\ get_pcd_was_invoked w' = get_pcd_was_invoked w /\
                         log w' = log w))];
    try (intros ? ? K; exact K); repeat split.
Qed.

(** From the loop test, running on to the next loop test is the loop test
    followed, when it passes, by the flag test. *)
Lemma supervisor_tick_from_loop_test w :
  supervisor_at_flag_test w = false ->
  supervisor_tick w
  = if running (manager w) then supervisor_step (supervisor_step w) else supervisor_step w.
Proof.
  intro H. unfold supervisor_tick, supervisor_step. rewrite H.
  destruct w as [h wd wc wdp ci dm pc0 inv [nr r rc] lg sup]. simpl in *. subst sup.
  destruct r; [| reflexivity]. simpl.
  unfold WorkerManager_run_iteration, WorkerManager_flag_test. simpl.
  destruct nr; reflexivity.
Qed.

Lemma flag_test_fields m :
  needs_reconfigure (WorkerManager_flag_test m) = needs_reconfigure m /\
  running (WorkerManager_flag_test m) = running m && negb (needs_reconfigure m) /\
  reconfigure_calls (WorkerManager_flag_test m)
  = (reconfigure_calls m + (if needs_reconfigure m then 1 else 0))%nat.
Proof.
  unfold WorkerManager_flag_test. destruct m as [nr r rc]. simpl.
  destruct nr; simpl; repeat split; try lia; destruct r; reflexivity.
Qed.

Lemma run_iteration_fields m :
  needs_reconfigure (WorkerManager_run_iteration m) = needs_reconfigure m /\
  running (WorkerManager_run_iteration m) = running m && negb (needs_reconfigure m) /\
  reconfigure_calls (WorkerManager_run_iteration m)
  = (reconfigure_calls m + (if running m && needs_reconfigure m then 1 else 0))%nat.
Proof.
  unfold WorkerManager_run_iteration. destruct m as [nr r rc]. simpl.
  destruct r, nr; simpl; repeat split; lia.
Qed.

Lemma same_control_refl w : same_control w w.
Proof. repeat split. Qed.

Lemma same_control_trans w1 w2 w3 :
  same_control w1 w2 -> same_control w2 w3 -> same_control w1 w3.
Proof. unfold same_control. intuition congruence. Qed.

Lemma keeps_ret {A} (a : A) : keeps_control (ret a).
Proof. intro w. apply same_control_refl. Qed.

Lemma keeps_raise {A} (e : exn) : keeps_control (@raise A e).
Proof. intro w. apply same_control_refl. Qed.

Lemma keeps_getf {A} (f : Worker -> A) : keeps_control (getf f).
Proof. intro w. apply same_control_refl. Qed.

Lemma keeps_lift {A} (o : outcome A) : keeps_control (lift o).
Proof. intro w. apply same_control_refl. Qed.

Lemma keeps_bind {A B} (m : M A) (k : A -> M B) :
  keeps_control m -> (forall a, keeps_control (k a)) -> keeps_control (bind m k).
Proof.
  intros Hm Hk w. unfold bind. specialize (Hm w).
  destruct (m w) as [[a | e] w1]; simpl in *.
  - eapply same_control_trans; [exact Hm | apply Hk].
  - exact Hm.
Qed.

Lemma keeps_modify (f : Worker -> Worker) :
  (forall w, same_control w (f w)) -> keeps_control (modify f).
Proof. intros Hf w. apply Hf. Qed.

Lemma keeps_add_log e : keeps_control (modify (add_log e)).
Proof. apply keeps_modify. intro w. repeat split. Qed.

Lemma keeps_sdk_call err : keeps_control (sdk_call err).
Proof. destruct err; [apply keeps_raise | apply keeps_ret]. Qed.

Lemma keeps_cv2_call r : keeps_control (cv2_call r).
Proof. destruct r; [apply keeps_ret | apply keeps_raise]. Qed.

Lemma keeps_for_each {A} (f : A -> M unit) (xs : list A) :
  (forall x, keeps_control (f x)) -> keeps_control (for_each f xs).
Proof.
  intro Hf. induction xs as [| x xs IH]; simpl.
  - apply keeps_ret.
  - apply keeps_bind; [apply Hf | intros _; exact IH].
Qed.

Lemma keeps_set_color_image arr now : keeps_control (_set_color_image arr now).
Proof. apply keeps_modify. intro w. repeat split. Qed.

Lemma keeps_set_depth_map p now : keeps_control (_set_depth_map p now).
Proof.
  unfold _set_depth_map.
  apply keeps_bind; [apply keeps_getf | intro h].
  apply keeps_bind; [apply keeps_getf | intro w].
  apply keeps_bind.
  - destruct (negb _); [| apply keeps_ret].
    apply keeps_bind; [apply keeps_add_log | intros _; apply keeps_cv2_call].
  - intro a. apply keeps_modify. intro w0. repeat split.
Qed.

Lemma keeps_set_pcd p now : keeps_control (_set_pcd p now).
Proof.
  unfold _set_pcd.
  apply keeps_bind.
  - destruct (_ >? _); [| apply keeps_ret].
    apply keeps_bind; [apply keeps_add_log | intros _; apply keeps_lift].
  - intro a. apply keeps_modify. intro w0. repeat split.
Qed.

Lemma keeps_handle_color_output io : keeps_control (_handle_color_output io).
Proof.
  unfold _handle_color_output.
  apply keeps_bind; [apply keeps_getf | intros [|]; [| apply keeps_ret]].
  apply keeps_bind; [apply keeps_lift | intros [bgr |]; [| apply keeps_ret]].
  apply keeps_bind; [apply keeps_cv2_call | intro rgb; apply keeps_set_color_image].
Qed.

Lemma keeps_invoke_callback oak m : keeps_control (invoke_callback oak m).
Proof.
  unfold invoke_callback. destruct (fst m) as [p | p].
  - destruct (depth_callback oak); [apply keeps_set_depth_map | apply keeps_ret].
  - destruct (pcd_callback oak); [apply keeps_set_pcd | apply keeps_ret].
Qed.

Lemma keeps_handle_depth_and_pcd_output oak io :
  keeps_control (_handle_depth_and_pcd_output oak io).
Proof.
  unfold _handle_depth_and_pcd_output, oak_poll.
  apply keeps_bind; [apply keeps_getf | intros [|]; [| apply keeps_ret]].
  apply keeps_bind; [| intros _; apply keeps_sdk_call].
  apply keeps_for_each. apply keeps_invoke_callback.
Qed.

Lemma keeps_configure_color oak : keeps_control (_configure_color oak).
Proof.
  unfold _configure_color.
  apply keeps_bind; [apply keeps_getf | intros [|]; apply keeps_ret].
Qed.

Lemma keeps_configure_stereo oak : keeps_control (_configure_stereo oak).
Proof.
  unfold _configure_stereo.
  apply keeps_bind; [apply keeps_getf | intros [|]; [| apply keeps_ret]].
  apply keeps_bind; [apply keeps_getf | intro; apply keeps_ret].
Qed.

Lemma keeps_configure_pc oak : keeps_control (_configure_pc oak).
Proof.
  unfold _configure_pc.
  apply keeps_bind; [apply keeps_getf | intro d].
  apply keeps_bind; [apply keeps_getf | intro i].
  destruct (d && i); apply keeps_ret.
Qed.

Lemma keeps_build_segment f io : keeps_control (build_segment f io).
Proof.
  unfold build_segment.
  apply keeps_bind; [apply keeps_sdk_call | intros _].
  apply keeps_bind; [apply keeps_configure_color | intro o1].
  apply keeps_bind; [apply keeps_configure_stereo | intro o2].
  apply keeps_bind; [apply keeps_configure_pc | intro o3; apply keeps_ret].
Qed.

Lemma keeps_start_segment f oak io : keeps_control (start_segment f oak io).
Proof.
  unfold start_segment.
  apply keeps_bind; [apply keeps_getf | intro prev].
  apply keeps_bind; [apply keeps_sdk_call | intros _; apply keeps_ret].
Qed.

Lemma keeps_head_segment f oak prev io : keeps_control (head_segment f oak prev io).
Proof.
  unfold head_segment.
  apply keeps_bind; [apply keeps_getf | intros [|]].
  - apply keeps_bind; [apply keeps_getf | intro i].
    destruct (negb _); [| apply keeps_ret].
    apply keeps_bind; [apply keeps_sdk_call | intros _; apply keeps_ret].
  - apply keeps_bind; [apply keeps_sdk_call | intros _; apply keeps_ret].
Qed.

Lemma keeps_body_segment f oak prev io : keeps_control (body_segment f oak prev io).
Proof.
  unfold body_segment.
  apply keeps_bind; [apply keeps_handle_color_output | intros _].
  apply keeps_bind; [apply keeps_handle_depth_and_pcd_output | intros _; apply keeps_ret].
Qed.

(** ** Where a segment hands control *)

Lemma bind_Normal {A B} (m : M A) (k : A -> M B) w b w' :
  bind m k w = (Normal b, w') ->
  exists a w1, m w = (Normal a, w1) /\ k a w1 = (Normal b, w').
Proof.
  unfold bind. destruct (m w) as [[a | e] w1]; intro H.
  - exists a, w1. split; [reflexivity | exact H].
  - discriminate H.
Qed.

Ltac bind_inv H :=
  let a := fresh "a" in
  let w1 := fresh "w1" in
  let Hm := fresh "Hm" in
  apply bind_Normal in H; destruct H as (a & w1 & Hm & H).

Lemma ret_Normal {A} (a b : A) w w' : ret a w = (Normal b, w') -> a = b /\ w = w'.
Proof. unfold ret. intro H. inversion H. split; reflexivity. Qed.

Lemma continues_build f io w p w' :
  build_segment f io w = (Normal p, w') -> continues f p.
Proof.
  unfold build_segment. intro H. do 4 bind_inv H.
  apply ret_Normal in H. destruct H as [<- _]. repeat split; discriminate.
Qed.

Lemma continues_start f oak io w p w' :
  start_segment f oak io w = (Normal p, w') -> continues f p.
Proof.
  unfold start_segment. intro H. do 2 bind_inv H.
  apply ret_Normal in H. destruct H as [<- _]. repeat split; discriminate.
Qed.

Lemma continues_body f oak prev io w p w' :
  body_segment f oak prev io w = (Normal p, w') -> continues f p.
Proof.
  unfold body_segment. intro H. do 2 bind_inv H.
  apply ret_Normal in H. destruct H as [<- _]. repeat split; discriminate.
Qed.

(** ** The escalation branch is dead

    [failures] is a local of [_pipeline_loop], set to 0 on every call, and a
    call ends with the first exception it catches. *)

Lemma resume_in_try_never_escalated (body : M phase) (w : Worker) :
  keeps_control body ->
  (forall p w', body w = (Normal p, w') -> pc_failures p = 0) ->
  needs_reconfigure (manager w) = false ->
  reconfigure_calls (manager w) = 0%nat ->
  never_escalated (resume (in_try 0 body) w).
Proof.
  intros Hk Hp Hn Hc. unfold resume, in_try, try_except_Exception.
  pose proof (Hk w) as Hs. destruct (body w) as [[p | e] w1] eqn:E; simpl in Hs.
  - destruct Hs as (_ & _ & _ & _ & _ & Hm). unfold never_escalated; simpl.
    rewrite Hm. split; [apply (Hp p w1); reflexivity | auto].
  - destruct Hs as (_ & _ & _ & _ & _ & Hm).
    destruct (isinstance_Exception e); unfold never_escalated; simpl; rewrite Hm; auto.
Qed.

Lemma worker_step_never_escalated io s :
  never_escalated s -> never_escalated (worker_step io s).
Proof.
  intros (Hf & Hn & Hc). unfold worker_step.
  destruct (pc s) as [| f | f oak | f oak prev | f oak prev | |] eqn:Epc; simpl in Hf; subst.
  - destruct (running (manager (worker s))); repeat split; assumption.
  - apply resume_in_try_never_escalated; auto using keeps_build_segment.
    intros p w' H. apply continues_build in H. apply H.
  - apply resume_in_try_never_escalated; auto using keeps_start_segment.
    intros p w' H. apply continues_start in H. apply H.
  - apply resume_in_try_never_escalated; auto using keeps_head_segment.
    intros p w'. unfold head_segment, bind, getf, sdk_call, ret, raise.
    destruct (running (manager (worker s)));
      [destruct (negb _) |]; try destruct (sdk_error io);
      intro H; inversion H; reflexivity.
  - apply resume_in_try_never_escalated; auto using keeps_body_segment.
    intros p w' H. apply continues_body in H. apply H.
  - unfold never_escalated. rewrite Epc. auto.
  - unfold never_escalated. rewrite Epc. auto.
Qed.

Lemma step_never_escalated ev s :
  never_escalated s -> never_escalated (step ev s).
Proof.
  intros H. destruct ev as [io | | | |]; simpl.
  - apply worker_step_never_escalated; exact H.
  - destruct H as (Hf & Hn & Hc). unfold never_escalated; simpl.
    rewrite supervisor_tick_manager.
    destruct (flag_test_fields (manager (worker s))) as (F1 & _ & F3).
    destruct (run_iteration_fields (manager (worker s))) as (R1 & _ & R3).
    rewrite Hn, ?andb_false_r in *.
    destruct (supervisor_at_flag_test (worker s)); repeat split; try assumption;
      try congruence; lia.
  - destruct H as (Hf & Hn & Hc). unfold never_escalated, mark_get_pcd; simpl.
    destruct (negb _); auto.
  - destruct H as (Hf & Hn & Hc). unfold never_escalated; simpl. auto.
  - destruct H as (Hf & Hn & Hc). unfold never_escalated; simpl.
    rewrite supervisor_step_manager.
    destruct (flag_test_fields (manager (worker s))) as (F1 & _ & F3).
    rewrite Hn in *.
    destruct (supervisor_at_flag_test (worker s)); repeat split; try assumption;
      try congruence; lia.
Qed.

Lemma run_events_never_escalated evs s :
  never_escalated s -> never_escalated (run_events evs s).
Proof.
  revert s. induction evs as [| ev evs IH]; intros s H; simpl.
  - exact H.
  - apply IH. apply step_never_escalated. exact H.
Qed.

Lemma run_events_app evs1 evs2 s :
  run_events (evs1 ++ evs2) s = run_events evs2 (run_events evs1 s).
Proof. unfold run_events. apply fold_left_app. Qed.

(** One failing pipeline lifetime: the worker is back in [run] with nothing
    changed but one more log line; the count it logs is 1. *)
Lemma failing_attempt_effect (e : exn) (w : Worker) :
  isinstance_Exception e = true ->
  running (manager w) = true ->
  user_wants_color w = true ->
  run_events (failing_attempt e) (mk_system w RunLoop)
  = mk_system (add_log (LogFailureCount 1) w) RunLoop.
Proof.
  intros He Hr Hc.
  destruct w as [h wd wc wdp ci dm pc0 inv [nr r rc] lg sup]. simpl in Hr, Hc. subst wc r.
  destruct e; try discriminate He; destruct wdp, inv; reflexivity.
Qed.

Lemma failing_attempts_effect (e : exn) (n : nat) (w : Worker) :
  isinstance_Exception e = true ->
  running (manager w) = true ->
  user_wants_color w = true ->
  run_events (failing_attempts e n) (mk_system w RunLoop)
  = mk_system (Nat.iter n (add_log (LogFailureCount 1)) w) RunLoop.
Proof.
  intros He. revert w. induction n as [| n IH]; intros w Hr Hc; cbn [failing_attempts].
  - reflexivity.
  - rewrite run_events_app, failing_attempt_effect by assumption.
    rewrite IH by assumption.
    f_equal. clear. induction n as [| n IHn]; simpl; [reflexivity | now rewrite IHn].
Qed.

Lemma log_iter_add_log (e : log_entry) (n : nat) (w : Worker) :
  log (Nat.iter n (add_log e) w) = log w ++ repeat e n.
Proof.
  induction n as [| n IH]; simpl.
  - now rewrite app_nil_r.
  - rewrite IH, <- app_assoc. f_equal. symmetry. apply repeat_cons.
Qed.

(** No run of the system ever requests a reconfiguration or calls the
    replacement factory. *)
Lemma escalation_unreachable (h w : Z) (wants_color wants_depth : bool) (evs : list event) :
  let s := run_events evs (started h w wants_color wants_depth) in
  needs_reconfigure (manager (worker s)) = false /\
  reconfigure_calls (manager (worker s)) = 0%nat.
Proof.
  apply (run_events_never_escalated evs (started h w wants_color wants_depth)).
  repeat split.
Qed.

(** ** Escalation after repeated failures (C1) *)

(** C1 (what the code does). Four consecutive transient
    errors in the capture loop, threshold 3, then a tick of the supervisor:
    the reconfiguration flag is still false, the replacement factory has
    been called zero times, and the worker thread is back at the loop test
    of [run] with the supervisor running, not in its terminal state. *)
Theorem four_transient_errors_do_not_escalate
    (h w : Z) (wants_depth : bool) (msg : string) :
  let s := run_events (failing_attempts (RuntimeError msg) 4 ++ [ManagerTick])
                      (started h w true wants_depth) in
  needs_reconfigure (manager (worker s)) = false /\
  reconfigure_calls (manager (worker s)) = 0%nat /\
  pc s = RunLoop /\
  running (manager (worker s)) = true.
Proof.
  cbv zeta. rewrite run_events_app.
  unfold started. rewrite failing_attempts_effect by reflexivity.
  repeat split.
Qed.

(** ** The failure counter across attempts (C2) *)

(** C2 (what the code does). After [n] consecutive failing
    attempts the failure counts that the [except] clause has logged are all
    1: the counter restarts from zero with every call of [_pipeline_loop]
    and is never [n] for [n >= 2]. *)
Theorem failure_count_restarts_each_attempt
    (h w : Z) (wants_depth : bool) (msg : string) (n : nat) :
  let s := run_events (failing_attempts (RuntimeError msg) n)
                      (started h w true wants_depth) in
  log (worker s) = repeat (LogFailureCount 1) n /\ pc s = RunLoop.
Proof.
  cbv zeta. unfold started. rewrite failing_attempts_effect by reflexivity.
  simpl. rewrite log_iter_add_log. split; reflexivity.
Qed.

(** ** The worker thread never touches the configuration, the demand flag
    or the shutdown signal *)

Lemma same_control_static w w' : same_control w w' -> same_static w w'.
Proof. unfold same_control, same_static. intuition congruence. Qed.

Lemma same_static_refl w : same_static w w.
Proof. repeat split. Qed.

Lemma same_static_trans w1 w2 w3 :
  same_static w1 w2 -> same_static w2 w3 -> same_static w1 w3.
Proof. unfold same_static. intuition congruence. Qed.

Lemma except_clause_static f e w : same_static w (snd (except_clause f e w)).
Proof.
  unfold except_clause. destruct (_ >? _); repeat split.
Qed.

Lemma resume_in_try_static f (body : M phase) w :
  keeps_control body -> same_static w (worker (resume (in_try f body) w)).
Proof.
  intro Hk. unfold resume, in_try, try_except_Exception.
  pose proof (same_control_static _ _ (Hk w)) as Hs.
  destruct (body w) as [[p | e] w1]; simpl in *.
  - exact Hs.
  - destruct (isinstance_Exception e).
    + pose proof (except_clause_static f e w1) as He.
      unfold bind, ret. destruct (except_clause f e w1) as [[[] | e'] w2]; simpl in *;
        eapply same_static_trans; eauto.
    + simpl. eapply same_static_trans; [exact Hs | repeat split].
Qed.

Lemma worker_step_static io s : same_static (worker s) (worker (worker_step io s)).
Proof.
  unfold worker_step.
  destruct (pc s) as [| f | f oak | f oak prev | f oak prev | |].
  - destruct (running (manager (worker s))); repeat split.
  - apply resume_in_try_static, keeps_build_segment.
  - apply resume_in_try_static, keeps_start_segment.
  - apply resume_in_try_static, keeps_head_segment.
  - apply resume_in_try_static, keeps_body_segment.
  - apply same_static_refl.
  - apply same_static_refl.
Qed.

(** The shutdown signal is one-way. *)
Lemma step_running_false ev s :
  running (manager (worker s)) = false ->
  running (manager (worker (step ev s))) = false.
Proof.
  intro H. destruct ev as [io | | | |]; simpl.
  - destruct (worker_step_static io s) as (_ & _ & _ & _ & _ & Hr & _). congruence.
  - rewrite supervisor_tick_manager.
    destruct (flag_test_fields (manager (worker s))) as (_ & F2 & _).
    destruct (run_iteration_fields (manager (worker s))) as (_ & R2 & _).
    rewrite H in F2, R2. destruct (supervisor_at_flag_test (worker s)); assumption.
  - unfold mark_get_pcd. destruct (negb _); simpl; exact H.
  - reflexivity.
  - rewrite supervisor_step_manager.
    destruct (flag_test_fields (manager (worker s))) as (_ & F2 & _).
    rewrite H in F2. destruct (supervisor_at_flag_test (worker s)); assumption.
Qed.

Lemma run_events_running_false evs s :
  running (manager (worker s)) = false ->
  running (manager (worker (run_events evs s))) = false.
Proof.
  revert s. induction evs as [| ev evs IH]; intros s H; simpl; [exact H |].
  apply IH, step_running_false, H.
Qed.

(** The demand flag is one-way. *)
Lemma step_flag_true ev s :
  get_pcd_was_invoked (worker s) = true ->
  get_pcd_was_invoked (worker (step ev s)) = true.
Proof.
  intro H. destruct ev as [io | | | |]; simpl.
  - destruct (worker_step_static io s) as (_ & _ & _ & _ & Hf & _). congruence.
  - apply (supervisor_tick_keeps (fun w => get_pcd_was_invoked w = true));
      try (intros ? ? K; exact K); exact H.
  - unfold mark_get_pcd. rewrite H. exact H.
  - exact H.
  - apply (supervisor_step_keeps (fun w => get_pcd_was_invoked w = true));
      try (intros ? ? K; exact K); exact H.
Qed.

Lemma run_events_flag_true evs s :
  get_pcd_was_invoked (worker s) = true ->
  get_pcd_was_invoked (worker (run_events evs s)) = true.
Proof.
  revert s. induction evs as [| ev evs IH]; intros s H; simpl; [exact H |].
  apply IH, step_flag_true, H.
Qed.

(** ** The lazy point-cloud stage (C3) *)

(** C3 (as the code has it). In every BUILDING phase that the SDK lets succeed, the
    point-cloud stage and its callback are included exactly when depth is
    enabled in the configuration and the point-cloud demand flag is true at
    that moment; the build changes nothing in the worker. *)
Theorem pc_stage_built_iff_depth_enabled_and_requested
    (f : Z) (io : device_io) (s : system) :
  pc s = Building f ->
  sdk_error io = None ->
  exists oak,
    worker_step io s = mk_system (worker s) (Configured f oak) /\
    pointcloud_component oak = user_wants_depth (worker s) && get_pcd_was_invoked (worker s) /\
    pcd_callback oak = user_wants_depth (worker s) && get_pcd_was_invoked (worker s).
Proof.
  intros Hpc Hio. destruct s as [w p]. simpl in *. subst p.
  exists (pipeline_for w (get_pcd_was_invoked w)).
  unfold worker_step; simpl.
  unfold resume, in_try, try_except_Exception, build_segment, bind. rewrite Hio.
  destruct w as [h wd wc wdp ci dm pc0 inv m lg sup].
  destruct wc, wdp, inv; repeat split; reflexivity.
Qed.

(** ** Marking point-cloud demand (C6) *)

(** C6. For every N >= 1, N calls of the point-cloud accessor leave the
    system in the state one call leaves it in, with the demand flag true;
    a further call changes nothing at all (it triggers no restart), and no
    later event of any kind turns the flag back to false. *)
Theorem mark_get_pcd_idempotent_monotonic
    (n : nat) (s : system) (later : list event) :
  (1 <= n)%nat ->
  let once := step GetPcdCalled s in
  run_events (repeat GetPcdCalled n) s = once /\
  get_pcd_was_invoked (worker once) = true /\
  step GetPcdCalled once = once /\
  get_pcd_was_invoked (worker (run_events later once)) = true.
Proof.
  intros Hn once.
  assert (Hflag : get_pcd_was_invoked (worker once) = true).
  { unfold once; simpl. unfold mark_get_pcd.
    destruct (get_pcd_was_invoked (worker s)) eqn:E; simpl; [exact E | reflexivity]. }
  assert (Hidem : step GetPcdCalled once = once).
  { destruct once as [w p]. simpl in *. unfold mark_get_pcd. rewrite Hflag. reflexivity. }
  repeat split.
  - destruct n as [| n]; [lia |]. clear Hn.
    change (run_events (repeat GetPcdCalled n) once = once).
    induction n as [| n IH]; [reflexivity |].
    change (run_events (repeat GetPcdCalled n) (step GetPcdCalled once) = once).
    rewrite Hidem. exact IH.
  - exact Hflag.
  - exact Hidem.
  - apply run_events_flag_true, Hflag.
Qed.

(** ** Accessors after stop (C5) *)

Lemma await_slot_pending_app slot (before rest : list Worker) :
  await_slot slot before = Pending ->
  await_slot slot (before ++ rest) = await_slot slot rest.
Proof.
  induction before as [| w before IH]; simpl; intro H; [reflexivity |].
  destruct (slot w); [discriminate H |].
  destruct (running (manager w)); [apply IH, H | discriminate H].
Qed.

Lemma await_slot_stopped slot (w : Worker) (later : list Worker) :
  running (manager w) = false ->
  await_slot slot (w :: later) = Resolved (slot w).
Proof.
  intro H. simpl. rewrite H. destruct (slot w); reflexivity.
Qed.

(** C5. Let [stop()] be invoked in any state and let [w] be the worker at any
    later moment. The supervisor's running flag is false in [w], and every
    accessor call, whether it was pending on earlier polls or is new
    ([before] empty), returns at its first poll that sees [w], whatever comes
    [later]: it returns the slot, which is the empty "stopped" result when no
    frame was published for the modality. *)
Theorem accessors_resolve_after_stop
    (s : system) (evs : list event)
    (before_color before_depth before_pcd later : list Worker) :
  get_color_image before_color = Pending ->
  get_depth_map before_depth = Pending ->
  get_pcd_await before_pcd = Pending ->
  let w := worker (run_events evs (step StopCalled s)) in
  running (manager w) = false /\
  get_color_image (before_color ++ w :: later) = Resolved (color_image w) /\
  get_depth_map (before_depth ++ w :: later) = Resolved (depth_map w) /\
  get_pcd_await (before_pcd ++ w :: later) = Resolved (pcd w) /\
  (color_image w = None -> get_color_image (before_color ++ w :: later) = Resolved None) /\
  (depth_map w = None -> get_depth_map (before_depth ++ w :: later) = Resolved None) /\
  (pcd w = None -> get_pcd_await (before_pcd ++ w :: later) = Resolved None).
Proof.
  intros Hc Hd Hp w.
  assert (Hr : running (manager w) = false).
  { apply run_events_running_false. reflexivity. }
  unfold get_color_image, get_depth_map, get_pcd_await in *.
  rewrite !await_slot_pending_app by assumption.
  rewrite !await_slot_stopped by assumption.
  repeat split; try assumption; intros ->; reflexivity.
Qed.

(** ** Slots hold whole frames (C7) *)

Lemma latest_cons {A} (x : A) (l : list A) :
  latest (x :: l) = match latest l with Some y => Some y | None => Some x end.
Proof. unfold latest. simpl. destruct (rev l); reflexivity. Qed.

Lemma read_prefix_of_publishes (pubs : list (ndarray * timestamp)) :
  forall (k : nat) (cur : option CapturedData),
    read (run_micro (firstn k (flat_map publish_ops pubs)) (mk_slot_state None cur))
    = match latest (firstn (Nat.div2 k) pubs) with
      | Some p => Some (frame_of p)
      | None => cur
      end.
Proof.
  induction pubs as [| p pubs IH]; intros k cur.
  - simpl. rewrite !firstn_nil. reflexivity.
  - destruct k as [| [| k]]; try reflexivity.
    change (read (run_micro (firstn k (flat_map publish_ops pubs))
                            (mk_slot_state None (Some (frame_of p))))
            = match latest (firstn (S (Nat.div2 k)) (p :: pubs)) with
              | Some q => Some (frame_of q)
              | None => cur
              end).
    rewrite IH. rewrite firstn_cons, latest_cons.
    destruct (latest (firstn (Nat.div2 k) pubs)); reflexivity.
Qed.


(** ** The point-cloud payload ceiling (C8) *)

Lemma twice_step2_len (n : Z) : 2 * step2_len n = n + n mod 2.
Proof. unfold step2_len. Z.to_euclidean_division_equations. lia. Qed.

(** C8 (as the code has it). For a point array of shape (H, W, C): a payload above the
    ceiling is stored as its one 2x row/column subsample [arr[::2, ::2, :]],
    of shape (ceil(H/2), ceil(W/2), C), whose item (i, j, k) is item
    (2i, 2j, k) of the original and whose payload is
    ceil(H/2) * ceil(W/2) * C * itemsize bytes; this is a quarter of the raw
    payload for even H and W, and then at most the ceiling for raw payloads
    of at most four times the ceiling. A payload at or below the ceiling is
    stored unchanged. *)
Theorem set_pcd_stores_one_2x_subsample
    (p : PointcloudPacket) (now : timestamp) (w : Worker) (H W C : Z) :
  shape (points p) = [H; W; C] ->
  let raw := points p in
  let r := _set_pcd p now w in
  fst r = Normal tt /\
  exists f,
    pcd (snd r) = Some f /\ captured_at f = now /\
    itemsize (np_array f) = itemsize raw /\
    if nbytes raw >? MAX_GRPC_MESSAGE_BYTE_COUNT then
      shape (np_array f) = [step2_len H; step2_len W; C] /\
      (forall i j k, item (np_array f) [i; j; k] = item raw [2 * i; 2 * j; k]) /\
      nbytes (np_array f) = step2_len H * step2_len W * C * itemsize raw /\
      4 * nbytes (np_array f) = (H + H mod 2) * (W + W mod 2) * C * itemsize raw /\
      (H mod 2 = 0 -> W mod 2 = 0 ->
       nbytes raw <= 4 * MAX_GRPC_MESSAGE_BYTE_COUNT ->
       nbytes (np_array f) <= MAX_GRPC_MESSAGE_BYTE_COUNT)
    else np_array f = raw.
Proof.
  intros Hshape raw r. unfold r, _set_pcd, bind, modify, ret, lift.
  fold raw. fold raw in Hshape.
  destruct (nbytes raw >? MAX_GRPC_MESSAGE_BYTE_COUNT) eqn:Ebig.
  - unfold slice_2_2_all. rewrite Hshape. cbn [fst snd pcd set_pcd].
    match goal with
    | |- context [Some (mk_CapturedData ?a now)] => set (sub := a)
    end.
    split; [reflexivity |]. exists (mk_CapturedData sub now).
    cbn [np_array captured_at].
    assert (Hn : nbytes sub = step2_len H * step2_len W * C * itemsize raw).
    { unfold nbytes, size, sub. cbn [shape itemsize fold_right]. ring. }
    assert (Hraw : nbytes raw = H * W * C * itemsize raw).
    { unfold nbytes, size. rewrite Hshape. cbn [fold_right]. ring. }
    assert (H4 : 4 * nbytes sub = (H + H mod 2) * (W + W mod 2) * C * itemsize raw).
    { rewrite Hn, <- !twice_step2_len. ring. }
    repeat split; try reflexivity; try assumption.
    intros HH HW Hle. rewrite HH, HW, !Z.add_0_r, <- Hraw in H4. lia.
  - cbn [fst snd pcd set_pcd]. split; [reflexivity |].
    exists (mk_CapturedData raw now). repeat split.
Qed.

(** ** Exceptions stay inside the pipeline loop (C9) *)

Lemma rx_ret {A} (a : A) : raises_Exceptions (ret a).
Proof. intros w e w' H. discriminate H. Qed.

Lemma rx_getf {A} (f : Worker -> A) : raises_Exceptions (getf f).
Proof. intros w e w' H. discriminate H. Qed.

Lemma rx_modify f : raises_Exceptions (modify f).
Proof. intros w e w' H. discriminate H. Qed.

Lemma rx_raise {A} (e : exn) :
  isinstance_Exception e = true -> raises_Exceptions (@raise A e).
Proof. intros He w e' w' H. inversion H. subst. exact He. Qed.

Lemma rx_bind {A B} (m : M A) (k : A -> M B) :
  raises_Exceptions m -> (forall a, raises_Exceptions (k a)) ->
  raises_Exceptions (bind m k).
Proof.
  intros Hm Hk w e w'. unfold bind.
  destruct (m w) as [[a | e1] w1] eqn:E; intro H.
  - eapply Hk, H.
  - inversion H. subst. eapply Hm, E.
Qed.

Lemma rx_for_each {A} (f : A -> M unit) (xs : list A) :
  (forall x, raises_Exceptions (f x)) -> raises_Exceptions (for_each f xs).
Proof.
  intro Hf. induction xs as [| x xs IH]; simpl.
  - apply rx_ret.
  - apply rx_bind; [apply Hf | intros _; exact IH].
Qed.

Lemma rx_cv2_call r : raises_Exceptions (cv2_call r).
Proof. destruct r; [apply rx_ret | apply rx_raise; reflexivity]. Qed.

Lemma rx_slice arr : raises_Exceptions (lift (slice_2_2_all arr)).
Proof.
  intros w e w'. unfold lift, slice_2_2_all.
  destruct (shape arr) as [| h [| wd [| c rest]]]; intro H; inversion H; reflexivity.
Qed.

Lemma device_errors_sdk io e :
  device_errors_are_Exceptions io = true -> sdk_error io = Some e ->
  isinstance_Exception e = true.
Proof.
  unfold device_errors_are_Exceptions, io_exceptions. intros H E. rewrite E in H.
  simpl in H. apply andb_prop in H. apply H.
Qed.

Lemma device_errors_preview io e :
  device_errors_are_Exceptions io = true -> preview_get io = Raised e ->
  isinstance_Exception e = true.
Proof.
  unfold device_errors_are_Exceptions, io_exceptions. intros H E. rewrite E in H.
  rewrite forallb_app in H. apply andb_prop in H. destruct H as [_ H].
  simpl in H. apply andb_prop in H. apply H.
Qed.

Lemma device_errors_poll io e :
  device_errors_are_Exceptions io = true -> poll_error io = Some e ->
  isinstance_Exception e = true.
Proof.
  unfold device_errors_are_Exceptions, io_exceptions. intros H E. rewrite E in H.
  rewrite !forallb_app in H. apply andb_prop in H. destruct H as [_ H].
  apply andb_prop in H. destruct H as [_ H].
  simpl in H. apply andb_prop in H. apply H.
Qed.

Lemma rx_sdk_call io :
  device_errors_are_Exceptions io = true -> raises_Exceptions (sdk_call (sdk_error io)).
Proof.
  intro H. destruct (sdk_error io) as [e |] eqn:E; simpl.
  - apply rx_raise. eapply device_errors_sdk; eauto.
  - apply rx_ret.
Qed.

Lemma rx_set_depth_map p now : raises_Exceptions (_set_depth_map p now).
Proof.
  unfold _set_depth_map.
  apply rx_bind; [apply rx_getf | intro h].
  apply rx_bind; [apply rx_getf | intro w].
  apply rx_bind; [| intro a; apply rx_modify].
  destruct (negb _); [| apply rx_ret].
  apply rx_bind; [apply rx_modify | intros _; apply rx_cv2_call].
Qed.

Lemma rx_set_pcd p now : raises_Exceptions (_set_pcd p now).
Proof.
  unfold _set_pcd.
  apply rx_bind; [| intro a; apply rx_modify].
  destruct (_ >? _); [| apply rx_ret].
  apply rx_bind; [apply rx_modify | intros _; apply rx_slice].
Qed.

Lemma rx_segment p io :
  device_errors_are_Exceptions io = true -> raises_Exceptions (segment p io).
Proof.
  intro Hio. pose proof (rx_sdk_call io Hio) as Hsdk.
  destruct p as [| f | f oak | f oak prev | f oak prev | |]; simpl; try apply rx_ret.
  - unfold build_segment, _configure_color, _configure_stereo, _configure_pc.
    apply rx_bind; [exact Hsdk | intros _].
    apply rx_bind; [apply rx_bind; [apply rx_getf | intros [|]; apply rx_ret] | intro o1].
    apply rx_bind.
    { apply rx_bind; [apply rx_getf | intros [|]; [| apply rx_ret]].
      apply rx_bind; [apply rx_getf | intro; apply rx_ret]. }
    intro o2. apply rx_bind; [| intro; apply rx_ret].
    apply rx_bind; [apply rx_getf | intro d].
    apply rx_bind; [apply rx_getf | intro i]. destruct (d && i); apply rx_ret.
  - unfold start_segment.
    apply rx_bind; [apply rx_getf | intro prev].
    apply rx_bind; [exact Hsdk | intros _; apply rx_ret].
  - unfold head_segment.
    apply rx_bind; [apply rx_getf | intros [|]].
    + apply rx_bind; [apply rx_getf | intro i]. destruct (negb _); [| apply rx_ret].
      apply rx_bind; [exact Hsdk | intros _; apply rx_ret].
    + apply rx_bind; [exact Hsdk | intros _; apply rx_ret].
  - unfold body_segment, _handle_color_output, _handle_depth_and_pcd_output, oak_poll.
    apply rx_bind.
    { apply rx_bind; [apply rx_getf | intros [|]; [| apply rx_ret]].
      apply rx_bind.
      - intros w e w' H. unfold lift in H. inversion H.
        eapply device_errors_preview; eauto.
      - intros [bgr |]; [| apply rx_ret].
        apply rx_bind; [apply rx_cv2_call | intro; apply rx_modify]. }
    intros _. apply rx_bind; [| intros _; apply rx_ret].
    apply rx_bind; [apply rx_getf | intros [|]; [| apply rx_ret]].
    apply rx_bind.
    + apply rx_for_each. intros [[p | p] now]; unfold invoke_callback; simpl.
      * destruct (depth_callback oak); [apply rx_set_depth_map | apply rx_ret].
      * destruct (pcd_callback oak); [apply rx_set_pcd | apply rx_ret].
    + intros _. destruct (poll_error io) as [e |] eqn:E; simpl.
      * apply rx_raise. eapply device_errors_poll; eauto.
      * apply rx_ret.
Qed.

Lemma continues_head f oak prev io w p w' :
  head_segment f oak prev io w = (Normal p, w') -> continues f p \/ p = RunLoop.
Proof.
  unfold head_segment, bind, getf, sdk_call, ret, raise.
  destruct (running (manager w)); [destruct (negb _) |]; try destruct (sdk_error io);
    intro H; inversion H; subst; try (right; reflexivity);
    left; repeat split; discriminate.
Qed.

Lemma segment_not_Crashed p io w q w' :
  is_Crashed p = false -> segment p io w = (Normal q, w') -> is_Crashed q = false.
Proof.
  intros Hp. destruct p as [| f | f oak | f oak prev | f oak prev | |]; simpl; intro H;
    try (apply ret_Normal in H; destruct H as [<- _]; (reflexivity || exact Hp)).
  - apply continues_build in H. apply H.
  - apply continues_start in H. apply H.
  - apply continues_head in H. destruct H as [H | ->]; [apply H | reflexivity].
  - apply continues_body in H. apply H.
Qed.

(** Inside [_pipeline_loop] a step of the thread is its segment under the
    [try]; elsewhere no segment runs. *)
Lemma worker_step_segment io s :
  in_pipeline_loop (pc s) = true ->
  worker_step io s = resume (in_try (pc_failures (pc s)) (segment (pc s) io)) (worker s).
Proof.
  unfold worker_step. destruct (pc s); simpl; intro H; try discriminate H; reflexivity.
Qed.

Lemma worker_step_not_Crashed io s :
  device_errors_are_Exceptions io = true ->
  is_Crashed (pc s) = false ->
  is_Crashed (pc (worker_step io s)) = false.
Proof.
  intros Hio Hs. destruct (in_pipeline_loop (pc s)) eqn:Ein.
  - rewrite worker_step_segment by exact Ein.
    unfold resume, in_try, try_except_Exception.
    destruct (segment (pc s) io (worker s)) as [[q | e] w1] eqn:E.
    + simpl. eapply segment_not_Crashed; eauto.
    + rewrite (rx_segment (pc s) io Hio _ _ _ E).
      unfold bind, ret. destruct (except_clause _ e w1) as [[[] | e'] w2] eqn:Ex.
      * reflexivity.
      * unfold except_clause in Ex. destruct (_ >? _); discriminate Ex.
  - unfold worker_step. destruct (pc s) eqn:Epc; try discriminate Ein;
      try (rewrite Epc; exact Hs).
    destruct (running (manager (worker s))); reflexivity.
Qed.

Lemma run_events_not_Crashed evs s :
  forallb event_errors_are_Exceptions evs = true ->
  is_Crashed (pc s) = false ->
  is_Crashed (pc (run_events evs s)) = false.
Proof.
  revert s. induction evs as [| ev evs IH]; intros s Hevs Hs; simpl; [exact Hs |].
  simpl in Hevs. apply andb_prop in Hevs. destruct Hevs as [Hev Hevs].
  apply IH; [exact Hevs |].
  destruct ev as [io | | | |]; simpl; try exact Hs.
  apply worker_step_not_Crashed; assumption.
Qed.

(** C9. As long as what the device, the SDK and the transforms raise are
    instances of [Exception], the worker thread is never left by an
    exception, whatever the interleaving of events. Whenever a segment of
    the pipeline loop (build, start, loop test, capture round with its
    transforms and publishes) raises, the [except] clause takes it: the
    thread is back at the loop test of [run] with the shutdown signal and the
    factory calls untouched, so the pipeline is built again (retry) unless
    the clause has requested the reconfiguration (escalation). *)
Theorem device_exceptions_stay_in_pipeline_loop
    (evs : list event) (s0 : system) (io : device_io) :
  forallb event_errors_are_Exceptions evs = true ->
  device_errors_are_Exceptions io = true ->
  is_Crashed (pc s0) = false ->
  let s := run_events evs s0 in
  let s' := worker_step io s in
  is_Crashed (pc s) = false /\
  is_Crashed (pc s') = false /\
  match fst (segment (pc s) io (worker s)) with
  | Normal _ => True
  | Raised e =>
      isinstance_Exception e = true /\
      pc s' = RunLoop /\
      running (manager (worker s')) = running (manager (worker s)) /\
      reconfigure_calls (manager (worker s')) = reconfigure_calls (manager (worker s)) /\
      (needs_reconfigure (manager (worker s')) = needs_reconfigure (manager (worker s)) \/
       needs_reconfigure (manager (worker s')) = true)
  end.
Proof.
  intros Hevs Hio Hs0 s s'.
  assert (Hs : is_Crashed (pc s) = false) by (apply run_events_not_Crashed; assumption).
  split; [exact Hs |]. split; [apply worker_step_not_Crashed; assumption |].
  destruct (segment (pc s) io (worker s)) as [[q | e] w1] eqn:E; simpl; [exact I |].
  pose proof (rx_segment (pc s) io Hio _ _ _ E) as He.
  split; [exact He |].
  assert (Hin : in_pipeline_loop (pc s) = true).
  { destruct (pc s); simpl in E; try discriminate E; reflexivity. }
  pose proof (worker_step_static io s) as (_ & _ & _ & _ & _ & Hr & Hc).
  fold s' in Hr, Hc.
  assert (Hstep : s' = resume (in_try (pc_failures (pc s)) (segment (pc s) io)) (worker s))
    by (apply worker_step_segment, Hin).
  assert (Hk : manager w1 = manager (worker s)).
  { assert (K : keeps_control (segment (pc s) io)).
    { destruct (pc s); simpl; try apply keeps_ret;
        auto using keeps_build_segment, keeps_start_segment, keeps_head_segment,
                   keeps_body_segment. }
    specialize (K (worker s)). rewrite E in K. apply K. }
  unfold resume, in_try, try_except_Exception in Hstep. rewrite E, He in Hstep.
  unfold bind, ret, except_clause, modify in Hstep.
  destruct (pc_failures (pc s) + 1 >? MAX_PIPELINE_FAILURES); simpl in Hstep;
    rewrite Hstep; simpl; rewrite ?Hk; repeat split; auto.
Qed.

(** ** Shape of the published depth frames (C10) *)

Lemma shape_eqb_eq (s1 s2 : list Z) : shape_eqb s1 s2 = true -> s1 = s2.
Proof.
  revert s2. induction s1 as [| x s1 IH]; intros [| y s2] H; simpl in H;
    try discriminate H; [reflexivity |].
  apply andb_prop in H. destruct H as [Hx Hs].
  apply Z.eqb_eq in Hx. subst. f_equal. apply IH, Hs.
Qed.

Lemma preserves_ret {A} P (a : A) : preserves P (ret a).
Proof. intros w H. exact H. Qed.

Lemma preserves_raise {A} P (e : exn) : preserves P (@raise A e).
Proof. intros w H. exact H. Qed.

Lemma preserves_getf {A} P (f : Worker -> A) : preserves P (getf f).
Proof. intros w H. exact H. Qed.

Lemma preserves_lift {A} P (o : outcome A) : preserves P (lift o).
Proof. intros w H. exact H. Qed.

Lemma preserves_modify P f : (forall w, P w -> P (f w)) -> preserves P (modify f).
Proof. intros Hf w H. apply Hf, H. Qed.

Lemma preserves_bind {A B} P (m : M A) (k : A -> M B) :
  preserves P m -> (forall a, preserves P (k a)) -> preserves P (bind m k).
Proof.
  intros Hm Hk w H. unfold bind. specialize (Hm w H).
  destruct (m w) as [[a | e] w1]; simpl in *; [apply Hk, Hm | exact Hm].
Qed.

Lemma preserves_for_each {A} P (f : A -> M unit) (xs : list A) :
  Forall (fun x => preserves P (f x)) xs -> preserves P (for_each f xs).
Proof.
  induction 1 as [| x xs Hx _ IH]; simpl.
  - apply preserves_ret.
  - apply preserves_bind; [exact Hx | intros _; exact IH].
Qed.

Lemma preserves_sdk_call P err : preserves P (sdk_call err).
Proof. destruct err; [apply preserves_raise | apply preserves_ret]. Qed.

Lemma preserves_cv2_call P r : preserves P (cv2_call r).
Proof. destruct r; [apply preserves_ret | apply preserves_raise]. Qed.

Lemma depth_ok_add_log e w : depth_shape_ok w -> depth_shape_ok (add_log e w).
Proof. intro H. exact H. Qed.

(** The depth publish step: the slot is left alone when the resize raises,
    and otherwise holds a frame of shape (height, width) with this call's
    timestamp, the packet's own frame when its shape already fits. *)
Lemma set_depth_map_shape (p : DisparityDepthPacket) (now : timestamp) (w : Worker) :
  resize_gives_dsize ->
  ndim (frame p) = 2%nat ->
  match fst (_set_depth_map p now w) with
  | Normal _ =>
      exists f, depth_map (snd (_set_depth_map p now w)) = Some f /\
                shape (np_array f) = [height w; width w] /\
                captured_at f = now /\
                (shape (frame p) = [height w; width w] -> np_array f = frame p)
  | Raised _ => depth_map (snd (_set_depth_map p now w)) = depth_map w
  end.
Proof.
  intros Hresize H2. unfold _set_depth_map, bind, getf, modify, ret, cv2_call, raise.
  destruct (shape_eqb (shape (frame p)) [height w; width w]) eqn:Eshape; simpl.
  - apply shape_eqb_eq in Eshape. exists (mk_CapturedData (frame p) now).
    repeat split. exact Eshape.
  - destruct (cv2_resize (frame p) (width w, height w)) as [dst |] eqn:Er; simpl.
    + exists (mk_CapturedData dst now). repeat split.
      * eapply Hresize; eauto.
      * intro E. rewrite E in Eshape. simpl in Eshape.
        rewrite !Z.eqb_refl in Eshape. discriminate Eshape.
    + reflexivity.
Qed.

Lemma preserves_set_depth_map p now :
  resize_gives_dsize -> ndim (frame p) = 2%nat ->
  preserves depth_shape_ok (_set_depth_map p now).
Proof.
  intros Hresize H2 w Hw.
  pose proof (set_depth_map_shape p now w Hresize H2) as H.
  assert (Hc : same_control w (snd (_set_depth_map p now w))) by apply keeps_set_depth_map.
  destruct Hc as (Hh & Hwd & _).
  unfold depth_shape_ok. rewrite Hh, Hwd.
  destruct (fst (_set_depth_map p now w)).
  - destruct H as (f & -> & Hs & _). exact Hs.
  - rewrite H. exact Hw.
Qed.

Lemma preserves_set_pcd p now : preserves depth_shape_ok (_set_pcd p now).
Proof.
  unfold _set_pcd. apply preserves_bind.
  - destruct (_ >? _); [| apply preserves_ret].
    apply preserves_bind; [apply preserves_modify, depth_ok_add_log |].
    intros _. apply preserves_lift.
  - intro a. apply preserves_modify. intros w H. exact H.
Qed.

Lemma preserves_segment p io :
  resize_gives_dsize ->
  forallb message_depth_2d (polled io) = true ->
  preserves depth_shape_ok (segment p io).
Proof.
  intros Hresize H2.
  destruct p as [| f | f oak | f oak prev | f oak prev | |]; simpl;
    try apply preserves_ret.
  - unfold build_segment, _configure_color, _configure_stereo, _configure_pc.
    repeat (apply preserves_bind; [| intro]);
      repeat match goal with
             | |- preserves _ (if ?b then _ else _) => destruct b
             | |- preserves _ (bind _ _) => apply preserves_bind; [| intro]
             end;
      auto using preserves_ret, preserves_getf, preserves_sdk_call.
  - unfold start_segment.
    repeat (apply preserves_bind; [| intro]);
      auto using preserves_ret, preserves_getf, preserves_sdk_call.
  - unfold head_segment.
    repeat match goal with
           | |- preserves _ (if ?b then _ else _) => destruct b
           | |- preserves _ (bind _ _) => apply preserves_bind; [| intro]
           end;
      auto using preserves_ret, preserves_getf, preserves_sdk_call.
  - unfold body_segment, _handle_color_output, _handle_depth_and_pcd_output, oak_poll.
    apply preserves_bind.
    { apply preserves_bind; [apply preserves_getf | intros [|]; [| apply preserves_ret]].
      apply preserves_bind; [apply preserves_lift |].
      intros [bgr |]; [| apply preserves_ret].
      apply preserves_bind; [apply preserves_cv2_call |].
      intro rgb. apply preserves_modify. intros w H. exact H. }
    intros _. apply preserves_bind; [| intros _; apply preserves_ret].
    apply preserves_bind; [apply preserves_getf | intros [|]; [| apply preserves_ret]].
    apply preserves_bind; [| intros _; apply preserves_sdk_call].
    apply preserves_for_each. rewrite forallb_forall in H2.
    apply Forall_forall. intros [[pk | pk] now] Hin; unfold invoke_callback; simpl.
    + destruct (depth_callback oak); [| apply preserves_ret].
      apply preserves_set_depth_map; [exact Hresize |].
      specialize (H2 _ Hin). unfold message_depth_2d in H2. simpl in H2.
      apply Nat.eqb_eq, H2.
    + destruct (pcd_callback oak); [apply preserves_set_pcd | apply preserves_ret].
Qed.

Lemma worker_step_depth_shape_ok io s :
  resize_gives_dsize ->
  forallb message_depth_2d (polled io) = true ->
  depth_shape_ok (worker s) -> depth_shape_ok (worker (worker_step io s)).
Proof.
  intros Hresize H2 Hs. destruct (in_pipeline_loop (pc s)) eqn:Ein.
  - rewrite worker_step_segment by exact Ein.
    unfold resume, in_try, try_except_Exception.
    pose proof (preserves_segment (pc s) io Hresize H2 (worker s) Hs) as Hseg.
    destruct (segment (pc s) io (worker s)) as [[q | e] w1]; simpl in *; [exact Hseg |].
    destruct (isinstance_Exception e); [| exact Hseg].
    unfold bind, ret, except_clause, modify.
    destruct (_ >? _); simpl; exact Hseg.
  - unfold worker_step. destruct (pc s); try discriminate Ein; try exact Hs.
    destruct (running (manager (worker s))); exact Hs.
Qed.

Lemma step_depth_shape_ok ev s :
  resize_gives_dsize ->
  event_depth_2d ev = true ->
  depth_shape_ok (worker s) -> depth_shape_ok (worker (step ev s)).
Proof.
  intros Hresize H2 Hs. destruct ev as [io | | | |]; simpl.
  - apply worker_step_depth_shape_ok; assumption.
  - apply (supervisor_tick_keeps depth_shape_ok); try (intros ? ? K; exact K); exact Hs.
  - unfold mark_get_pcd. destruct (negb _); exact Hs.
  - exact Hs.
  - apply (supervisor_step_keeps depth_shape_ok); try (intros ? ? K; exact K); exact Hs.
Qed.

Lemma step_height_width ev s :
  height (worker (step ev s)) = height (worker s) /\
  width (worker (step ev s)) = width (worker s).
Proof.
  destruct ev as [io | | | |]; simpl.
  - destruct (worker_step_static io s) as (Hh & Hw & _). split; assumption.
  - apply (supervisor_tick_keeps
             (fun w => height w = height (worker s) /\ width w = width (worker s)));
      try (intros ? ? K; exact K); split; reflexivity.
  - unfold mark_get_pcd. destruct (negb _); split; reflexivity.
  - split; reflexivity.
  - apply (supervisor_step_keeps
             (fun w => height w = height (worker s) /\ width w = width (worker s)));
      try (intros ? ? K; exact K); split; reflexivity.
Qed.

Lemma run_events_depth_shape_ok evs s :
  resize_gives_dsize ->
  forallb event_depth_2d evs = true ->
  depth_shape_ok (worker s) ->
  depth_shape_ok (worker (run_events evs s)) /\
  height (worker (run_events evs s)) = height (worker s) /\
  width (worker (run_events evs s)) = width (worker s).
Proof.
  intro Hresize. revert s. induction evs as [| ev evs IH]; intros s H2 Hs; simpl.
  - repeat split. exact Hs.
  - simpl in H2. apply andb_prop in H2. destruct H2 as [Hev Hevs].
    destruct (IH (step ev s) Hevs (step_depth_shape_ok ev s Hresize Hev Hs))
      as (Hok & Hh & Hw).
    destruct (step_height_width ev s) as (Hh1 & Hw1).
    repeat split; [exact Hok | congruence | congruence].
Qed.

(** The depth publish step, case by case: a fitting frame is stored as it is;
    a mismatching one is logged and resized, and the resized frame is stored
    unless the resize raises, which is the only way the step raises. *)
Lemma set_depth_map_cases (p : DisparityDepthPacket) (now : timestamp) (w : Worker) :
  _set_depth_map p now w
  = if shape_eqb (shape (frame p)) [height w; width w]
    then (Normal tt, set_depth_map (Some (mk_CapturedData (frame p) now)) w)
    else match cv2_resize (frame p) (width w, height w) with
         | Some dst =>
             (Normal tt,
              set_depth_map (Some (mk_CapturedData dst now))
                            (add_log (LogShapeMismatch (shape (frame p))) w))
         | None =>
             (Raised cv2_error, add_log (LogShapeMismatch (shape (frame p))) w)
         end.
Proof.
  unfold _set_depth_map, bind, getf, modify, ret, cv2_call, raise.
  destruct (shape_eqb (shape (frame p)) [height w; width w]); simpl; [reflexivity |].
  destruct (cv2_resize (frame p) (width w, height w)); reflexivity.
Qed.

(** C10 (as the code has it). Given that [cv2.resize] to [(width, height)]
    returns an array of shape (height, width) for a frame of two axes, and
    that depth packets carry frames of two axes: whatever the events since
    the worker was constructed, the depth slot is empty or holds a frame of
    shape exactly (height, width). A call of the depth publish step stores a
    frame whose shape already is (height, width) as it is; otherwise it logs
    the mismatch and stores the frame [cv2.resize] returns, with the
    timestamp of the call, or, when [cv2.resize] raises, raises [cv2.error]
    and leaves the slot alone; it raises in no other case. *)
Theorem depth_frames_have_configured_shape
    (evs : list event) (h wd : Z) (wants_color wants_depth : bool)
    (p : DisparityDepthPacket) (now : timestamp) (w0 : Worker) :
  resize_gives_dsize ->
  forallb event_depth_2d evs = true ->
  ndim (frame p) = 2%nat ->
  let w := worker (run_events evs (started h wd wants_color wants_depth)) in
  match depth_map w with
  | None => True
  | Some f => shape (np_array f) = [h; wd]
  end /\
  match fst (_set_depth_map p now w0) with
  | Normal _ =>
      exists f, depth_map (snd (_set_depth_map p now w0)) = Some f /\
                shape (np_array f) = [height w0; width w0] /\
                captured_at f = now /\
                (shape (frame p) = [height w0; width w0] -> np_array f = frame p)
  | Raised _ => depth_map (snd (_set_depth_map p now w0)) = depth_map w0
  end /\
  _set_depth_map p now w0
  = (if shape_eqb (shape (frame p)) [height w0; width w0]
     then (Normal tt, set_depth_map (Some (mk_CapturedData (frame p) now)) w0)
     else match cv2_resize (frame p) (width w0, height w0) with
          | Some dst =>
              (Normal tt,
               set_depth_map (Some (mk_CapturedData dst now))
                             (add_log (LogShapeMismatch (shape (frame p))) w0))
          | None =>
              (Raised cv2_error, add_log (LogShapeMismatch (shape (frame p))) w0)
          end) /\
  match cv2_resize (frame p) (width w0, height w0) with
  | Some dst => shape dst = [height w0; width w0]
  | None => True
  end.
Proof.
  intros Hresize Hevs Hp w. split; [| split; [| split]].
  - destruct (run_events_depth_shape_ok evs (started h wd wants_color wants_depth)
                Hresize Hevs I) as (Hok & Hh & Hw).
    fold w in Hok, Hh, Hw. unfold depth_shape_ok in Hok.
    rewrite Hh, Hw in Hok. exact Hok.
  - apply set_depth_map_shape; assumption.
  - apply set_depth_map_cases.
  - destruct (cv2_resize (frame p) (width w0, height w0)) as [dst |] eqn:E; [| exact I].
    exact (Hresize (frame p) dst (width w0) (height w0) Hp E).
Qed.

(** ** Restart on a demand change (C4) *)

Lemma agree_refl w : agree_but_pcd w w.
Proof. repeat split. Qed.

Lemma related_ret {A} (a : A) : related (ret a) (ret a).
Proof. intros w1 w2 H. split; [exact H | reflexivity]. Qed.

Lemma related_raise {A} (e : exn) : related (@raise A e) (raise e).
Proof. intros w1 w2 H. split; [exact H | reflexivity]. Qed.

Lemma related_lift {A} (o : outcome A) : related (lift o) (lift o).
Proof. intros w1 w2 H. split; [exact H | reflexivity]. Qed.

Lemma related_getf {A} (f : Worker -> A) :
  (forall w1 w2, agree_but_pcd w1 w2 -> f w1 = f w2) -> related (getf f) (getf f).
Proof. intros Hf w1 w2 H. split; [exact H | simpl; f_equal; apply Hf, H]. Qed.

Lemma related_modify f g :
  (forall w1 w2, agree_but_pcd w1 w2 -> agree_but_pcd (f w1) (g w2)) ->
  related (modify f) (modify g).
Proof. intros Hf w1 w2 H. split; [apply Hf, H | reflexivity]. Qed.

Lemma related_bind {A B} (m1 m2 : M A) (k1 k2 : A -> M B) :
  related m1 m2 -> (forall a, related (k1 a) (k2 a)) ->
  related (bind m1 k1) (bind m2 k2).
Proof.
  intros Hm Hk w1 w2 H. unfold bind. destruct (Hm w1 w2 H) as [Ha Hr].
  destruct (m1 w1) as [o1 v1], (m2 w2) as [o2 v2]. simpl in *. subst o2.
  destruct o1 as [a | e]; [apply Hk, Ha | split; [exact Ha | reflexivity]].
Qed.

Lemma related_for_each {A} (f g : A -> M unit) (xs : list A) :
  Forall (fun x => related (f x) (g x)) xs -> related (for_each f xs) (for_each g xs).
Proof.
  induction 1 as [| x xs Hx _ IH]; simpl.
  - apply related_ret.
  - apply related_bind; [exact Hx | intros _; exact IH].
Qed.

Lemma related_cv2_call r : related (cv2_call r) (cv2_call r).
Proof. destruct r; [apply related_ret | apply related_raise]. Qed.

Lemma related_sdk_call err : related (sdk_call err) (sdk_call err).
Proof. destruct err; [apply related_raise | apply related_ret]. Qed.

Lemma related_set_depth_map p now : related (_set_depth_map p now) (_set_depth_map p now).
Proof.
  unfold _set_depth_map.
  apply related_bind; [apply related_getf; intros w1 w2 H; apply H | intro h].
  apply related_bind; [apply related_getf; intros w1 w2 H; apply H | intro w].
  apply related_bind.
  - destruct (negb _); [| apply related_ret].
    apply related_bind; [| intros _; apply related_cv2_call].
    apply related_modify. intros w1 w2 H. exact H.
  - intro a. apply related_modify. intros w1 w2 H.
    unfold agree_but_pcd in *. simpl. intuition.
Qed.

Lemma related_handle_color_output io :
  related (_handle_color_output io) (_handle_color_output io).
Proof.
  unfold _handle_color_output.
  apply related_bind; [apply related_getf; intros w1 w2 H; apply H |].
  intros [|]; [| apply related_ret].
  apply related_bind; [apply related_lift | intros [bgr |]; [| apply related_ret]].
  apply related_bind; [apply related_cv2_call | intro rgb].
  apply related_modify. intros w1 w2 H. unfold agree_but_pcd in *. simpl. intuition.
Qed.

(** A point array of at least three dimensions is published without an
    exception, and only the point-cloud slot and the log change. *)
Lemma set_pcd_agree p now w :
  (3 <= ndim (points p))%nat ->
  fst (_set_pcd p now w) = Normal tt /\ agree_but_pcd w (snd (_set_pcd p now w)).
Proof.
  intro H3. unfold _set_pcd, bind, modify, ret, lift, slice_2_2_all.
  unfold ndim in H3.
  destruct (_ >? _); simpl.
  - destruct (shape (points p)) as [| h [| wd [| c rest]]]; simpl in H3; try lia.
    simpl. split; [reflexivity | repeat split].
  - split; [reflexivity | repeat split].
Qed.

Lemma agree_sym w1 w2 : agree_but_pcd w1 w2 -> agree_but_pcd w2 w1.
Proof. unfold agree_but_pcd. intuition. Qed.

Lemma agree_trans w1 w2 w3 :
  agree_but_pcd w1 w2 -> agree_but_pcd w2 w3 -> agree_but_pcd w1 w3.
Proof. unfold agree_but_pcd. intuition congruence. Qed.

Lemma related_invoke_callback oak1 oak2 m :
  depth_callback oak1 = depth_callback oak2 ->
  message_points_3d m = true ->
  related (invoke_callback oak1 m) (invoke_callback oak2 m).
Proof.
  intros Hd H3. unfold invoke_callback, message_points_3d in *.
  destruct (fst m) as [p | p].
  - rewrite Hd. destruct (depth_callback oak2); [apply related_set_depth_map | apply related_ret].
  - apply Nat.leb_le in H3. intros w1 w2 H.
    destruct (set_pcd_agree p (snd m) w1 H3) as [E1 A1].
    destruct (set_pcd_agree p (snd m) w2 H3) as [E2 A2].
    destruct (pcd_callback oak1), (pcd_callback oak2); simpl; rewrite ?E1, ?E2;
      (split; [| reflexivity]);
      eauto using agree_trans, agree_sym.
Qed.

Lemma related_rounds oak1 oak2 io :
  depth_callback oak1 = depth_callback oak2 ->
  forallb message_points_3d (polled io) = true ->
  related (_handle_color_output io ;;; _handle_depth_and_pcd_output oak1 io)
          (_handle_color_output io ;;; _handle_depth_and_pcd_output oak2 io).
Proof.
  intros Hd H3. apply related_bind; [apply related_handle_color_output | intros _].
  unfold _handle_depth_and_pcd_output, oak_poll.
  apply related_bind; [apply related_getf; intros w1 w2 H; apply H |].
  intros [|]; [| apply related_ret].
  apply related_bind; [| intros _; apply related_sdk_call].
  apply related_for_each. apply Forall_forall. intros m Hin.
  apply related_invoke_callback; [exact Hd |].
  rewrite forallb_forall in H3. apply H3, Hin.
Qed.

(** What a capture round leaves in the slots, whatever becomes of the round. *)
Lemma body_step_slots f oak prev io w :
  let w' := snd ((_handle_color_output io ;;; _handle_depth_and_pcd_output oak io) w) in
  let s' := worker_step io (mk_system w (LoopBody f oak prev)) in
  color_image (worker s') = color_image w' /\
  depth_map (worker s') = depth_map w' /\
  pcd (worker s') = pcd w'.
Proof.
  unfold worker_step, resume, in_try, try_except_Exception, body_segment.
  cbn [pc worker]. unfold bind.
  destruct (_handle_color_output io w) as [[[] | e] w1];
    [destruct (_handle_depth_and_pcd_output oak io w1) as [[[] | e] w2] |];
    cbn [fst snd ret worker]; try (repeat split; fail);
    destruct (isinstance_Exception e); cbn [worker]; try (repeat split; fail);
    unfold except_clause, bind, modify, ret; destruct (_ >? _); repeat split.
Qed.

(** A pipeline without the point-cloud callback publishes no point cloud. *)
Lemma round_without_pcd_callback oak io :
  pcd_callback oak = false ->
  forall x, preserves (fun w => pcd w = x)
                      (_handle_color_output io ;;; _handle_depth_and_pcd_output oak io).
Proof.
  intros Hcb x. apply preserves_bind.
  - unfold _handle_color_output.
    apply preserves_bind; [apply preserves_getf | intros [|]; [| apply preserves_ret]].
    apply preserves_bind; [apply preserves_lift | intros [bgr |]; [| apply preserves_ret]].
    apply preserves_bind; [apply preserves_cv2_call | intro rgb].
    apply preserves_modify. intros w H. exact H.
  - intros _. unfold _handle_depth_and_pcd_output, oak_poll.
    apply preserves_bind; [apply preserves_getf | intros [|]; [| apply preserves_ret]].
    apply preserves_bind; [| intros _; apply preserves_sdk_call].
    apply preserves_for_each. apply Forall_forall. intros [[p | p] now] _;
      unfold invoke_callback; simpl.
    + destruct (depth_callback oak); [| apply preserves_ret].
      unfold _set_depth_map.
      apply preserves_bind; [apply preserves_getf | intro h].
      apply preserves_bind; [apply preserves_getf | intro wd].
      apply preserves_bind.
      * destruct (negb _); [| apply preserves_ret].
        apply preserves_bind; [apply preserves_modify; intros w H; exact H |].
        intros _. apply preserves_cv2_call.
      * intro a. apply preserves_modify. intros w H. exact H.
    + rewrite Hcb. apply preserves_ret.
Qed.

(** ** Shutdown of the worker thread *)

Lemma segment_progress p io w q w' :
  in_pipeline_loop p = true ->
  running (manager w) = false ->
  segment p io w = (Normal q, w') ->
  (steps_to_stop q <= pred (steps_to_stop p))%nat.
Proof.
  intros Hin Hr. destruct p as [| f | f oak | f oak prev | f oak prev | |];
    try discriminate Hin; simpl; intro H.
  - unfold build_segment in H. do 4 bind_inv H.
    apply ret_Normal in H. destruct H as [<- _]. simpl. lia.
  - unfold start_segment in H. do 2 bind_inv H.
    apply ret_Normal in H. destruct H as [<- _]. simpl. lia.
  - unfold head_segment, bind, getf in H. rewrite Hr in H.
    destruct (sdk_call (sdk_error io) w) as [[[] | e] w1]; [| discriminate H].
    apply ret_Normal in H. destruct H as [<- _]. simpl. lia.
  - unfold body_segment in H. do 2 bind_inv H.
    apply ret_Normal in H. destruct H as [<- _]. simpl. lia.
Qed.

Lemma worker_step_progress io s :
  running (manager (worker s)) = false ->
  device_errors_are_Exceptions io = true ->
  (steps_to_stop (pc (worker_step io s)) <= pred (steps_to_stop (pc s)))%nat.
Proof.
  intros Hr Hio. destruct (in_pipeline_loop (pc s)) eqn:Ein.
  - rewrite worker_step_segment by exact Ein.
    unfold resume, in_try, try_except_Exception.
    destruct (segment (pc s) io (worker s)) as [[q | e] w1] eqn:E.
    + simpl. eapply segment_progress; eauto.
    + rewrite (rx_segment (pc s) io Hio _ _ _ E).
      unfold bind, ret, except_clause, modify.
      destruct (_ >? _); simpl; destruct (pc s); try discriminate Ein; simpl; lia.
  - unfold worker_step. destruct (pc s) eqn:Epc; try discriminate Ein; simpl.
    + rewrite Hr. simpl. lia.
    + rewrite Epc. simpl. lia.
    + rewrite Epc. simpl. lia.
Qed.

Lemma run_events_reaches_Stopped evs :
  forall s,
    running (manager (worker s)) = false ->
    forallb event_errors_are_Exceptions evs = true ->
    is_Crashed (pc s) = false ->
    (steps_to_stop (pc s) <= worker_steps evs)%nat ->
    pc (run_events evs s) = Stopped.
Proof.
  induction evs as [| ev evs IH]; intros s Hr Hevs Hc Hn.
  - simpl in Hn. unfold run_events; simpl.
    destruct (pc s); simpl in Hn, Hc; try lia; try reflexivity; discriminate Hc.
  - simpl in Hevs. apply andb_prop in Hevs. destruct Hevs as [Hev Hevs].
    change (pc (run_events evs (step ev s)) = Stopped).
    apply IH.
    + apply step_running_false, Hr.
    + exact Hevs.
    + destruct ev as [io | | | |]; simpl; try exact Hc.
      apply worker_step_not_Crashed; assumption.
    + destruct ev as [io | | | |]; simpl in *; try exact Hn.
      pose proof (worker_step_progress io s Hr Hev). lia.
Qed.

(** X3. Once [stop()] has been called, the worker thread returns from [run]
    after at most four more of its segments, wherever it stood (it may still
    finish a build that was under way), provided it had not been left by an
    exception and what the device raises are instances of [Exception]. *)
Theorem worker_thread_stops_after_stop (evs : list event) (s : system) :
  forallb event_errors_are_Exceptions evs = true ->
  is_Crashed (pc s) = false ->
  (4 <= worker_steps evs)%nat ->
  pc (run_events evs (step StopCalled s)) = Stopped.
Proof.
  intros Hevs Hc Hn. apply run_events_reaches_Stopped.
  - reflexivity.
  - exact Hevs.
  - exact Hc.
  - simpl. destruct (pc s); simpl; lia.
Qed.


(** ** Properties of the worker that every event keeps *)

(** Building, starting and the loop test only read the worker. *)
Lemma segment_reads_only p io w :
  match p with LoopBody _ _ _ => False | _ => True end ->
  snd (segment p io w) = w.
Proof.
  destruct p as [| f | f oak | f oak prev | f oak prev | |]; simpl; intro Hp;
    try reflexivity; try contradiction.
  - unfold build_segment, _configure_color, _configure_stereo, _configure_pc,
      bind, getf, ret, sdk_call, raise.
    destruct (sdk_error io); simpl; [reflexivity |].
    destruct w as [h wd wc wdp ci dm pc0 inv m lg sup]. simpl.
    destruct wc, wdp, inv; reflexivity.
  - unfold start_segment, bind, getf, ret, sdk_call, raise.
    destruct (sdk_error io); reflexivity.
  - unfold head_segment, bind, getf, ret, sdk_call, raise.
    destruct (running (manager w)); [destruct (negb _) |]; destruct (sdk_error io); reflexivity.
Qed.

Lemma preserves_handle_color (P : Worker -> Prop) io :
  (forall x w, P w -> P (set_color_image (Some x) w)) ->
  preserves P (_handle_color_output io).
Proof.
  intro Hc. unfold _handle_color_output.
  apply preserves_bind; [apply preserves_getf | intros [|]; [| apply preserves_ret]].
  apply preserves_bind; [apply preserves_lift | intros [bgr |]; [| apply preserves_ret]].
  apply preserves_bind; [apply preserves_cv2_call | intro rgb].
  apply preserves_modify. intros w H. apply Hc, H.
Qed.

Lemma preserves_handle_depth (P : Worker -> Prop) oak io :
  (forall e w, e <> LogExitedThread -> P w -> P (add_log e w)) ->
  (forall x w, P w -> P (set_depth_map (Some x) w)) ->
  (forall x w, P w -> P (set_pcd (Some x) w)) ->
  preserves P (_handle_depth_and_pcd_output oak io).
Proof.
  intros Hl Hd Hp. unfold _handle_depth_and_pcd_output, oak_poll.
  apply preserves_bind; [apply preserves_getf | intros [|]; [| apply preserves_ret]].
  apply preserves_bind; [| intros _; apply preserves_sdk_call].
  apply preserves_for_each. apply Forall_forall. intros [[p | p] now] _;
    unfold invoke_callback; simpl.
  - destruct (depth_callback oak); [| apply preserves_ret].
    unfold _set_depth_map.
    apply preserves_bind; [apply preserves_getf | intro h].
    apply preserves_bind; [apply preserves_getf | intro wd].
    apply preserves_bind.
    + destruct (negb _); [| apply preserves_ret].
      apply preserves_bind;
        [apply preserves_modify; intros w H; apply Hl; [discriminate | exact H] |].
      intros _. apply preserves_cv2_call.
    + intro a. apply preserves_modify. intros w H. apply Hd, H.
  - destruct (pcd_callback oak); [| apply preserves_ret].
    unfold _set_pcd. apply preserves_bind.
    + destruct (_ >? _); [| apply preserves_ret].
      apply preserves_bind;
        [apply preserves_modify; intros w H; apply Hl; [discriminate | exact H] |].
      intros _. apply preserves_lift.
    + intro a. apply preserves_modify. intros w H. apply Hp, H.
Qed.

Lemma preserves_body (P : Worker -> Prop) f oak prev io :
  preserves P (_handle_color_output io) ->
  preserves P (_handle_depth_and_pcd_output oak io) ->
  preserves P (body_segment f oak prev io).
Proof.
  intros Hc Hd. unfold body_segment.
  apply preserves_bind; [exact Hc | intros _].
  apply preserves_bind; [exact Hd | intros _; apply preserves_ret].
Qed.

Lemma worker_step_keeps_written (P : Worker -> Prop) io s :
  (forall e w, P w -> P (add_log e w)) ->
  (forall m w, P w -> P (set_manager m w)) ->
  (forall f oak prev, preserves P (body_segment f oak prev io)) ->
  P (worker s) -> P (worker (worker_step io s)).
Proof.
  intros Hl Hm Hbody Hs. destruct (in_pipeline_loop (pc s)) eqn:Ein.
  - rewrite worker_step_segment by exact Ein.
    assert (Hseg : P (snd (segment (pc s) io (worker s)))).
    { destruct (pc s) as [| f | f oak | f oak prev | f oak prev | |] eqn:Epc;
        try discriminate Ein;
        try (rewrite segment_reads_only by exact I; exact Hs).
      simpl. apply Hbody, Hs. }
    unfold resume, in_try, try_except_Exception.
    destruct (segment (pc s) io (worker s)) as [[q | e] w1]; simpl in *; [exact Hseg |].
    destruct (isinstance_Exception e); simpl; [| apply Hl, Hseg].
    unfold bind, ret, except_clause, modify.
    destruct (_ >? _); simpl; [apply Hl, Hm, Hseg | apply Hl, Hseg].
  - unfold worker_step. destruct (pc s); try discriminate Ein; try exact Hs.
    destruct (running (manager (worker s))); simpl; [exact Hs | apply Hl, Hs].
Qed.

Lemma worker_step_keeps (P : Worker -> Prop) io s :
  control_closed P ->
  (forall f oak prev, preserves P (body_segment f oak prev io)) ->
  P (worker s) -> P (worker (worker_step io s)).
Proof.
  intros (Hl & Hm & _). apply worker_step_keeps_written; assumption.
Qed.

Lemma run_events_keep (P : Worker -> Prop) :
  control_closed P ->
  (forall f oak prev io, preserves P (body_segment f oak prev io)) ->
  forall evs s, P (worker s) -> P (worker (run_events evs s)).
Proof.
  intros Hcc Hbody. induction evs as [| ev evs IH]; intros s Hs; [exact Hs |].
  change (P (worker (run_events evs (step ev s)))). apply IH.
  destruct ev as [io | | | |]; simpl.
  - apply worker_step_keeps; auto.
  - apply supervisor_tick_keeps; [apply Hcc | apply Hcc | exact Hs].
  - unfold mark_get_pcd. destruct (negb _); [apply Hcc, Hs | exact Hs].
  - apply Hcc, Hs.
  - apply supervisor_step_keeps; [apply Hcc | apply Hcc | exact Hs].
Qed.

(** Properties that a publish into any slot keeps as well. *)
Lemma run_events_keep_published (P : Worker -> Prop) :
  control_closed P ->
  (forall x w, P w -> P (set_color_image (Some x) w)) ->
  (forall x w, P w -> P (set_depth_map (Some x) w)) ->
  (forall x w, P w -> P (set_pcd (Some x) w)) ->
  forall evs s, P (worker s) -> P (worker (run_events evs s)).
Proof.
  intros Hcc Hc Hd Hp. apply run_events_keep; [exact Hcc |].
  intros f oak prev io. apply preserves_body.
  - apply preserves_handle_color, Hc.
  - apply preserves_handle_depth; [intros e w _; apply Hcc | exact Hd | exact Hp].
Qed.

Lemma build_yields_pipeline_for (f : Z) (io : device_io) (w : Worker) :
  sdk_error io = None ->
  worker_step io (mk_system w (Building f))
  = mk_system w (Configured f (pipeline_for w (get_pcd_was_invoked w))).
Proof.
  intro Hio. unfold worker_step; simpl.
  unfold resume, in_try, try_except_Exception, build_segment, bind. rewrite Hio.
  destruct w as [h wd wc wdp ci dm pc0 inv m lg sup].
  destruct wc, wdp, inv; reflexivity.
Qed.

(** X5. A build that the SDK lets succeed yields the pipeline the
    configuration asks for and leaves the worker as it was: the color camera
    exactly when color is wanted, stereo depth with its callback exactly when
    depth is wanted, aligned to color exactly when both are, and the point
    cloud with its callback only on top of stereo depth. *)
Theorem build_follows_configuration (f : Z) (io : device_io) (s : system) :
  pc s = Building f ->
  sdk_error io = None ->
  let w := worker s in
  let oak := pipeline_for w (get_pcd_was_invoked w) in
  worker_step io s = mk_system w (Configured f oak) /\
  color_component oak = user_wants_color w /\
  stereo_component oak = user_wants_depth w /\
  stereo_aligned oak = user_wants_depth w && user_wants_color w /\
  depth_callback oak = stereo_component oak /\
  pcd_callback oak = pointcloud_component oak /\
  implb (pointcloud_component oak) (stereo_component oak) = true /\
  implb (stereo_aligned oak) (color_component oak) = true.
Proof.
  intros Hpc Hio w oak. subst w oak. destruct s as [w p]. simpl in *. subst p.
  split; [apply build_yields_pipeline_for, Hio |].
  destruct w as [h wd wc wdp ci dm pc0 inv m lg sup].
  destruct wc, wdp, inv; repeat split; reflexivity.
Qed.

(** X6. When reading or converting the color frame fails in a capture round,
    the round ends there: nothing is published to any slot, the depth and
    point-cloud messages waiting in [oak.poll()] are not delivered, the
    [except] clause logs the failure (or requests the reconfiguration when
    the count passes the maximum) and the thread is back in [run]. *)
Theorem color_failure_ends_the_round
    (f : Z) (oak : OakCamera) (prev : bool) (io : device_io) (w : Worker) (e : exn) :
  fst (_handle_color_output io w) = Raised e ->
  isinstance_Exception e = true ->
  let s' := worker_step io (mk_system w (LoopBody f oak prev)) in
  pc s' = RunLoop /\
  color_image (worker s') = color_image w /\
  depth_map (worker s') = depth_map w /\
  pcd (worker s') = pcd w /\
  log (worker s') = log w ++ [if f + 1 >? MAX_PIPELINE_FAILURES
                              then LogReachedMaxFailures
                              else LogFailureCount (f + 1)] /\
  needs_reconfigure (manager (worker s'))
  = (f + 1 >? MAX_PIPELINE_FAILURES) || needs_reconfigure (manager w).
Proof.
  intros Hraise He s'. subst s'.
  assert (Hw : _handle_color_output io w = (Raised e, w)).
  { revert Hraise. unfold _handle_color_output, bind, getf, lift, cv2_call, ret, raise,
      _set_color_image, modify.
    destruct (user_wants_color w); [| discriminate].
    destruct (preview_get io) as [[bgr |] | e0]; simpl.
    - destruct (cv2_cvtColor_BGR2RGB bgr); simpl; [discriminate |].
      intro H. inversion H. reflexivity.
    - discriminate.
    - intro H. inversion H. reflexivity. }
  assert (Hbody : body_segment f oak prev io w = (Raised e, w)).
  { unfold body_segment, bind. rewrite Hw. reflexivity. }
  change (worker_step io (mk_system w (LoopBody f oak prev)))
    with (resume (in_try f (body_segment f oak prev io)) w).
  unfold resume, in_try, try_except_Exception. rewrite Hbody, He.
  unfold bind, ret, except_clause, modify.
  destruct (f + 1 >? MAX_PIPELINE_FAILURES); simpl; repeat split.
Qed.

(** X7. A worker configured with neither color nor depth never touches the
    device in its capture loop: however many steps the thread takes and
    whatever the device would answer or raise, the worker object is
    unchanged and the thread is still in the loop of the same pipeline. *)
Theorem idle_worker_loop_has_no_effect
    (f : Z) (oak : OakCamera) (ios : list device_io) (w : Worker) :
  user_wants_color w = false ->
  user_wants_depth w = false ->
  running (manager w) = true ->
  let prev := get_pcd_was_invoked w in
  let s' := run_events (map WorkerStep ios) (mk_system w (LoopHead f oak prev)) in
  worker s' = w /\
  (pc s' = LoopHead f oak prev \/ pc s' = LoopBody f oak prev).
Proof.
  intros Hc Hd Hr prev.
  assert (Hhead : forall io, worker_step io (mk_system w (LoopHead f oak prev))
                             = mk_system w (LoopBody f oak prev)).
  { intro io. unfold worker_step, resume, in_try, try_except_Exception, head_segment,
      bind, getf, ret. simpl. rewrite Hr. unfold prev.
    rewrite Bool.eqb_reflx. reflexivity. }
  assert (Hbody : forall io, worker_step io (mk_system w (LoopBody f oak prev))
                             = mk_system w (LoopHead f oak prev)).
  { intro io. unfold worker_step, resume, in_try, try_except_Exception, body_segment,
      _handle_color_output, _handle_depth_and_pcd_output, bind, getf, ret. simpl.
    rewrite Hc, Hd. reflexivity. }
  assert (H : forall ios s,
             s = mk_system w (LoopHead f oak prev) \/ s = mk_system w (LoopBody f oak prev) ->
             let s' := run_events (map WorkerStep ios) s in
             s' = mk_system w (LoopHead f oak prev) \/ s' = mk_system w (LoopBody f oak prev)).
  { clear ios. induction ios as [| io ios IH]; intros s Hs; [exact Hs |].
    change (let s' := run_events (map WorkerStep ios) (worker_step io s) in
            s' = mk_system w (LoopHead f oak prev) \/ s' = mk_system w (LoopBody f oak prev)).
    apply IH. destruct Hs as [-> | ->]; [right; apply Hhead | left; apply Hbody]. }
  cbv zeta. destruct (H ios (mk_system w (LoopHead f oak prev)) (or_introl eq_refl)) as [E | E];
    rewrite E; split; auto.
Qed.

Lemma depth_off_body f oak prev io : preserves depth_off_and_empty (body_segment f oak prev io).
Proof.
  apply preserves_body.
  - apply preserves_handle_color. intros x w H. exact H.
  - intros w (Hd & Hm & Hp). unfold _handle_depth_and_pcd_output, bind, getf.
    rewrite Hd. simpl. repeat split; assumption.
Qed.

Lemma color_off_body f oak prev io : preserves color_off_and_empty (body_segment f oak prev io).
Proof.
  apply preserves_body.
  - intros w (Hc & Hi). unfold _handle_color_output, bind, getf.
    rewrite Hc. simpl. split; assumption.
  - apply preserves_handle_depth; [intros e w _ H; exact H | |]; intros x w H; exact H.
Qed.

Lemma color_off_stays_empty (evs : list event) (s : system) :
  color_off_and_empty (worker s) -> color_off_and_empty (worker (run_events evs s)).
Proof.
  apply (run_events_keep color_off_and_empty).
  - repeat split; apply H.
  - intros. apply color_off_body.
Qed.

Lemma depth_off_stays_empty (evs : list event) (s : system) :
  depth_off_and_empty (worker s) -> depth_off_and_empty (worker (run_events evs s)).
Proof.
  apply (run_events_keep depth_off_and_empty).
  - repeat split; apply H.
  - intros. apply depth_off_body.
Qed.

(** X8. A modality that is disabled in the configuration is never published:
    with color disabled the color slot stays empty, and with depth disabled
    the depth slot and the point-cloud slot stay empty, whatever the device
    delivers and whatever the consumers call. *)
Theorem disabled_modalities_are_never_published
    (evs : list event) (h w : Z) (wants_color wants_depth : bool) :
  let s' := run_events evs (started h w wants_color wants_depth) in
  (if wants_color then True else color_image (worker s') = None) /\
  (if wants_depth then True
   else depth_map (worker s') = None /\ pcd (worker s') = None).
Proof.
  cbv zeta. split.
  - destruct wants_color; [exact I |].
    apply (color_off_stays_empty evs (started h w false wants_depth)).
    split; reflexivity.
  - destruct wants_depth; [exact I |].
    apply (depth_off_stays_empty evs (started h w wants_color false)).
    repeat split.
Qed.

(** X9. A slot is never cleared: once a frame has been published for a
    modality, that slot holds a frame after every later event, restarts of
    the pipeline, failures and [stop()] included. *)
Theorem slots_are_never_cleared (evs : list event) (s : system) :
  let s' := run_events evs s in
  match color_image (worker s) with
  | Some _ => exists f, color_image (worker s') = Some f
  | None => True
  end /\
  match depth_map (worker s) with
  | Some _ => exists f, depth_map (worker s') = Some f
  | None => True
  end /\
  match pcd (worker s) with
  | Some _ => exists f, pcd (worker s') = Some f
  | None => True
  end.
Proof.
  cbv zeta. repeat split.
  - destruct (color_image (worker s)) as [c |] eqn:E; [| exact I].
    apply (run_events_keep_published (fun w => exists f, color_image w = Some f));
      try (intros ? ? H; exact H); [| intros; eexists; reflexivity | eauto].
    repeat split; intros ? ? H; exact H.
  - destruct (depth_map (worker s)) as [c |] eqn:E; [| exact I].
    apply (run_events_keep_published (fun w => exists f, depth_map w = Some f));
      try (intros ? ? H; exact H); [| intros; eexists; reflexivity | eauto].
    repeat split; intros ? ? H; exact H.
  - destruct (pcd (worker s)) as [c |] eqn:E; [| exact I].
    apply (run_events_keep_published (fun w => exists f, pcd w = Some f));
      try (intros ? ? H; exact H); [| intros; eexists; reflexivity | eauto].
    repeat split; intros ? ? H; exact H.
Qed.

(** Where [run] is after a segment under the [try]. *)
Lemma pc_resume_in_try f (seg : M phase) w :
  pc (resume (in_try f seg) w)
  = match seg w with
    | (Normal q, _) => q
    | (Raised e, _) => if isinstance_Exception e then RunLoop else Crashed e
    end.
Proof.
  unfold resume, in_try, try_except_Exception.
  destruct (seg w) as [[q | e] w1]; [reflexivity |].
  destruct (isinstance_Exception e); [| reflexivity].
  unfold bind, ret, except_clause, modify. destruct (_ >? _); reflexivity.
Qed.

Lemma resume_in_try_keeps (P : Worker -> Prop) f (seg : M phase) w :
  (forall e w, P w -> P (add_log e w)) ->
  (forall m w, P w -> P (set_manager m w)) ->
  P (snd (seg w)) -> P (worker (resume (in_try f seg) w)).
Proof.
  intros Hl Hm Hs. unfold resume, in_try, try_except_Exception.
  destruct (seg w) as [[q | e] w1]; simpl in *; [exact Hs |].
  destruct (isinstance_Exception e); simpl; [| apply Hl, Hs].
  unfold bind, ret, except_clause, modify.
  destruct (_ >? _); simpl; [apply Hl, Hm, Hs | apply Hl, Hs].
Qed.

(** ** Accessors on a disabled modality *)

Lemma await_slot_all_pending slot (obs : list Worker) :
  Forall (fun w => slot w = None /\ running (manager w) = true) obs ->
  await_slot slot obs = Pending.
Proof.
  induction 1 as [| w obs [Hs Hr] _ IH]; simpl; [reflexivity |].
  rewrite Hs, Hr. exact IH.
Qed.

(** X10. On a worker with depth disabled, [get_depth_map] and [get_pcd] do
    not return as long as every poll finds the supervisor running, however
    the worker got to the states the polls find: there is never a frame for
    them to return. *)
Theorem depth_accessors_wait_while_depth_disabled
    (h w : Z) (wants_color : bool) (runs : list (list event)) :
  forallb (fun o => running (manager o)) (observations h w wants_color false runs) = true ->
  get_depth_map (observations h w wants_color false runs) = Pending /\
  get_pcd_await (observations h w wants_color false runs) = Pending.
Proof.
  intro Hr. rewrite forallb_forall in Hr.
  assert (Hempty : forall o, In o (observations h w wants_color false runs) ->
                             depth_map o = None /\ pcd o = None).
  { intros o Ho. unfold observations in Ho. apply in_map_iff in Ho.
    destruct Ho as (evs & <- & _).
    assert (H0 : depth_off_and_empty (worker (started h w wants_color false)))
      by (repeat split).
    destruct (depth_off_stays_empty evs _ H0) as (_ & Hd & Hp). split; assumption. }
  split; apply await_slot_all_pending; apply Forall_forall; intros o Ho;
    (split; [apply (Hempty o Ho) | apply Hr, Ho]).
Qed.

(** ** The point cloud is lazy *)

Lemma segment_pcd_callback p io w q w' :
  segment p io w = (Normal q, w') ->
  phase_pcd_callback q = true ->
  phase_pcd_callback p = true \/ get_pcd_was_invoked w = true.
Proof.
  destruct p as [| f | f oak | f oak prev | f oak prev | |]; simpl; intros H Hq.
  - apply ret_Normal in H. destruct H as [<- _]. discriminate Hq.
  - right. revert H. unfold build_segment, _configure_color, _configure_stereo,
      _configure_pc, bind, getf, ret, sdk_call, raise.
    destruct (sdk_error io); simpl; [discriminate |].
    destruct w as [h wd wc wdp ci dm pc0 inv m lg sup]. simpl.
    destruct wc, wdp, inv; simpl; intro H; inversion H; subst q;
      simpl in Hq; try discriminate Hq; reflexivity.
  - left. unfold start_segment in H. do 2 bind_inv H.
    apply ret_Normal in H. destruct H as [<- _]. exact Hq.
  - left. revert H. unfold head_segment, bind, getf, ret, sdk_call, raise.
    destruct (running (manager w)); [destruct (negb _) |]; destruct (sdk_error io);
      intro H; inversion H; subst q; simpl in Hq; try discriminate Hq; exact Hq.
  - left. unfold body_segment in H. do 2 bind_inv H.
    apply ret_Normal in H. destruct H as [<- _]. exact Hq.
  - apply ret_Normal in H. destruct H as [<- _]. discriminate Hq.
  - apply ret_Normal in H. destruct H as [<- _]. discriminate Hq.
Qed.

Lemma worker_step_lazy_pcd io s :
  get_pcd_was_invoked (worker s) = false ->
  pcd (worker s) = None ->
  phase_pcd_callback (pc s) = false ->
  pcd (worker (worker_step io s)) = None /\
  phase_pcd_callback (pc (worker_step io s)) = false.
Proof.
  intros Hflag Hpcd Hcb. split.
  - destruct (pc s) as [| f | f oak | f oak prev | f oak prev | |] eqn:Epc.
    + unfold worker_step. rewrite Epc.
      destruct (running (manager (worker s))); exact Hpcd.
    + unfold worker_step. rewrite Epc.
      apply (resume_in_try_keeps (fun w => pcd w = None)); try (intros ? ? H; exact H).
      change (build_segment f io) with (segment (Building f) io).
      rewrite segment_reads_only by exact I. exact Hpcd.
    + unfold worker_step. rewrite Epc.
      apply (resume_in_try_keeps (fun w => pcd w = None)); try (intros ? ? H; exact H).
      change (start_segment f oak io) with (segment (Configured f oak) io).
      rewrite segment_reads_only by exact I. exact Hpcd.
    + unfold worker_step. rewrite Epc.
      apply (resume_in_try_keeps (fun w => pcd w = None)); try (intros ? ? H; exact H).
      change (head_segment f oak prev io) with (segment (LoopHead f oak prev) io).
      rewrite segment_reads_only by exact I. exact Hpcd.
    + destruct s as [w p]. simpl in *. subst p.
      destruct (body_step_slots f oak prev io w) as (_ & _ & ->).
      apply (round_without_pcd_callback oak io Hcb None w Hpcd).
    + unfold worker_step. rewrite Epc. exact Hpcd.
    + unfold worker_step. rewrite Epc. exact Hpcd.
  - destruct (in_pipeline_loop (pc s)) eqn:Ein.
    + rewrite worker_step_segment by exact Ein. rewrite pc_resume_in_try.
      destruct (segment (pc s) io (worker s)) as [[q | e] w1] eqn:E.
      * destruct (phase_pcd_callback q) eqn:Eq; [| reflexivity].
        destruct (segment_pcd_callback _ _ _ _ _ E Eq); congruence.
      * destruct (isinstance_Exception e); reflexivity.
    + unfold worker_step. destruct (pc s) eqn:Epc; try discriminate Ein.
      * destruct (running (manager (worker s))); reflexivity.
      * rewrite Epc. reflexivity.
      * rewrite Epc. reflexivity.
Qed.

(** X11. The point cloud is never computed ahead of demand: as long as no
    consumer has called [get_pcd], the point-cloud slot is empty and no
    pipeline the thread holds has the point-cloud callback, whatever the
    configuration, the device output and the failures. *)
Theorem no_point_cloud_before_demand
    (evs : list event) (h w : Z) (wants_color wants_depth : bool) :
  let s' := run_events evs (started h w wants_color wants_depth) in
  if get_pcd_was_invoked (worker s') then True
  else pcd (worker s') = None /\ phase_pcd_callback (pc s') = false.
Proof.
  cbv zeta.
  assert (H : forall evs s,
             (get_pcd_was_invoked (worker s) = false ->
              pcd (worker s) = None /\ phase_pcd_callback (pc s) = false) ->
             get_pcd_was_invoked (worker (run_events evs s)) = false ->
             pcd (worker (run_events evs s)) = None /\
             phase_pcd_callback (pc (run_events evs s)) = false).
  { clear. induction evs as [| ev evs IH]; intros s Hs; [exact Hs |].
    change (run_events (ev :: evs) s) with (run_events evs (step ev s)).
    apply IH. intro Hflag.
    destruct ev as [io | | | |]; simpl in *.
    - destruct (worker_step_static io s) as (_ & _ & _ & _ & Hf & _).
      rewrite Hf in Hflag. destruct (Hs Hflag) as [Hp Hc].
      apply worker_step_lazy_pcd; assumption.
    - destruct (supervisor_leaves_alone (worker s)) as [_ (_ & _ & Hp & Hf & _)].
      rewrite Hp. rewrite Hf in Hflag. apply Hs, Hflag.
    - unfold mark_get_pcd in Hflag.
      destruct (get_pcd_was_invoked (worker s)) eqn:E; simpl in Hflag.
      + rewrite E in Hflag. discriminate Hflag.
      + discriminate Hflag.
    - apply Hs, Hflag.
    - destruct (supervisor_leaves_alone (worker s)) as [(_ & _ & Hp & Hf & _) _].
      rewrite Hp. rewrite Hf in Hflag. apply Hs, Hflag. }
  destruct (get_pcd_was_invoked (worker (run_events evs (started h w wants_color wants_depth))))
    eqn:E; [exact I |].
  apply H; [| exact E]. intros _. split; reflexivity.
Qed.

(** ** Exceptions that [except Exception] does not catch *)

(** X13. An exception that is not an instance of [Exception], raised in any
    segment of the pipeline loop, leaves [run] through its [finally]: the
    exit is logged, the thread is dead for good, and the supervisor is
    told nothing (its running flag and its reconfiguration flag are what the
    segment found), so it goes on waiting. *)
Theorem uncaught_exception_ends_the_thread
    (io io' : device_io) (s : system) (e : exn) (w1 : Worker) :
  segment (pc s) io (worker s) = (Raised e, w1) ->
  isinstance_Exception e = false ->
  let s' := worker_step io s in
  s' = mk_system (add_log LogExitedThread w1) (Crashed e) /\
  manager (worker s') = manager (worker s) /\
  worker_step io' s' = s' /\
  WorkerManager_run_iteration (manager (worker s')) = WorkerManager_run_iteration (manager (worker s)).
Proof.
  intros Hseg He s'.
  assert (Hin : in_pipeline_loop (pc s) = true).
  { destruct (pc s); simpl in Hseg; try discriminate Hseg; reflexivity. }
  assert (Hs' : s' = mk_system (add_log LogExitedThread w1) (Crashed e)).
  { unfold s'. rewrite worker_step_segment by exact Hin.
    unfold resume, in_try, try_except_Exception. rewrite Hseg, He. reflexivity. }
  assert (Hm : manager w1 = manager (worker s)).
  { assert (K : keeps_control (segment (pc s) io)).
    { destruct (pc s); simpl; try apply keeps_ret;
        auto using keeps_build_segment, keeps_start_segment, keeps_head_segment,
                   keeps_body_segment. }
    specialize (K (worker s)). rewrite Hseg in K. apply K. }
  rewrite Hs'. simpl. rewrite Hm. repeat split.
Qed.

(** ** Edge cases of the publish steps *)

(** X15. A point array of fewer than three axes (a flat list of points) is
    stored unchanged while its payload is within the ceiling; above the
    ceiling the three-axis slice raises [IndexError] after the warning is
    logged, and nothing is published. *)
Theorem set_pcd_of_flat_points (p : PointcloudPacket) (now : timestamp) (w : Worker) :
  (ndim (points p) < 3)%nat ->
  _set_pcd p now w
  = if nbytes (points p) >? MAX_GRPC_MESSAGE_BYTE_COUNT
    then (Raised IndexError, add_log (LogPcdSubsampling (nbytes (points p))) w)
    else (Normal tt, set_pcd (Some (mk_CapturedData (points p) now)) w).
Proof.
  intro Hdim. unfold _set_pcd, bind, modify, ret, lift, slice_2_2_all.
  destruct (_ >? _); [| reflexivity].
  unfold ndim in Hdim.
  destruct (shape (points p)) as [| a [| b [| c rest]]]; simpl in Hdim; try lia; reflexivity.
Qed.

(** X16. The configuration given at construction (height, width and the two
    enabling flags) is never changed by any event. *)
Theorem configuration_is_immutable (evs : list event) (s : system) :
  let s' := run_events evs s in
  height (worker s') = height (worker s) /\
  width (worker s') = width (worker s) /\
  user_wants_color (worker s') = user_wants_color (worker s) /\
  user_wants_depth (worker s') = user_wants_depth (worker s).
Proof.
  cbv zeta.
  apply (run_events_keep_published
           (fun w' => height w' = height (worker s) /\ width w' = width (worker s) /\
                      user_wants_color w' = user_wants_color (worker s) /\
                      user_wants_depth w' = user_wants_depth (worker s)));
    try (intros ? ? H; exact H); [| repeat split].
  repeat split; apply H.
Qed.

Lemma for_each_fitting_depth_frames oak (frames : list (ndarray * timestamp)) :
  depth_callback oak = true ->
  forall w,
    Forall (fun p => shape (fst p) = [height w; width w]) frames ->
    for_each (invoke_callback oak) (depth_messages frames) w
    = (Normal tt,
       match latest frames with
       | Some p => set_depth_map (Some (frame_of p)) w
       | None => w
       end).
Proof.
  intro Hcb. induction frames as [| p frames IH]; intros w Hall; [reflexivity |].
  inversion Hall as [| ? ? Hp Hrest]; subst.
  cbn [depth_messages map for_each]. unfold bind.
  assert (Hone : invoke_callback oak (DepthMessage {| frame := fst p |}, snd p) w
                 = (Normal tt, set_depth_map (Some (frame_of p)) w)).
  { unfold invoke_callback. simpl. rewrite Hcb.
    unfold _set_depth_map, bind, getf, ret, modify. simpl.
    rewrite Hp. simpl. rewrite !Z.eqb_refl. reflexivity. }
  rewrite Hone. fold (depth_messages frames).
  rewrite IH by exact Hrest. rewrite latest_cons.
  destruct (latest frames) as [q |]; reflexivity.
Qed.


(** ** The exit of the thread is logged once *)

Lemma exits_logged_add_log e w :
  exits_logged (add_log e w)
  = (exits_logged w + (if is_exit_entry e then 1 else 0))%nat.
Proof.
  unfold exits_logged, add_log. simpl. rewrite filter_app, length_app. simpl.
  destruct (is_exit_entry e); reflexivity.
Qed.

Lemma segment_keeps_exits p io n :
  preserves (fun w => exits_logged w = n) (segment p io).
Proof.
  destruct p as [| f | f oak | f oak prev | f oak prev | |];
    try (intros w H; rewrite segment_reads_only by exact I; exact H).
  simpl. apply preserves_body.
  - apply preserves_handle_color. intros x w H. exact H.
  - apply preserves_handle_depth; try (intros x w H; exact H).
    intros e w He H. rewrite exits_logged_add_log, H.
    destruct e; simpl; try lia. exfalso. apply He. reflexivity.
Qed.

Lemma segment_result_not_returned p io w q w' :
  in_pipeline_loop p = true ->
  segment p io w = (Normal q, w') -> has_returned q = false.
Proof.
  intro Hin. destruct p as [| f | f oak | f oak prev | f oak prev | |];
    try discriminate Hin; simpl; intro H.
  - apply continues_build in H. destruct H as [[_ Hc] Hs].
    destruct q; try reflexivity; [contradiction | discriminate Hc].
  - apply continues_start in H. destruct H as [[_ Hc] Hs].
    destruct q; try reflexivity; [contradiction | discriminate Hc].
  - apply continues_head in H. destruct H as [[[_ Hc] Hs] | ->]; [| reflexivity].
    destruct q; try reflexivity; [contradiction | discriminate Hc].
  - apply continues_body in H. destruct H as [[_ Hc] Hs].
    destruct q; try reflexivity; [contradiction | discriminate Hc].
Qed.

Lemma worker_step_exits io s :
  exits_logged (worker s) = (if has_returned (pc s) then 1 else 0)%nat ->
  exits_logged (worker (worker_step io s))
  = (if has_returned (pc (worker_step io s)) then 1 else 0)%nat.
Proof.
  intro Hs. destruct (in_pipeline_loop (pc s)) eqn:Ein.
  - assert (H0 : exits_logged (worker s) = 0%nat).
    { rewrite Hs. destruct (pc s); try discriminate Ein; reflexivity. }
    rewrite worker_step_segment by exact Ein.
    pose proof (segment_keeps_exits (pc s) io 0 (worker s) H0) as Hseg.
    unfold resume, in_try, try_except_Exception.
    destruct (segment (pc s) io (worker s)) as [[q | e] w1] eqn:E; simpl in Hseg.
    + simpl. rewrite (segment_result_not_returned _ _ _ _ _ Ein E). exact Hseg.
    + destruct (isinstance_Exception e); simpl.
      * unfold bind, ret, except_clause, modify.
        destruct (_ >? _); simpl; rewrite exits_logged_add_log; simpl; unfold exits_logged in *;
          simpl; lia.
      * rewrite exits_logged_add_log, Hseg. reflexivity.
  - unfold worker_step. destruct (pc s) eqn:Epc; try discriminate Ein.
    + destruct (running (manager (worker s))); simpl.
      * exact Hs.
      * rewrite exits_logged_add_log, Hs. reflexivity.
    + rewrite Epc. exact Hs.
    + rewrite Epc. exact Hs.
Qed.

(** X14. The exit line of the worker thread ("Stopped and exited worker
    thread") is in the log exactly once when [run] has returned, whether
    after a stop or by an uncaught exception, and not at all before. *)
Theorem thread_exit_is_logged_exactly_once
    (evs : list event) (h w : Z) (wants_color wants_depth : bool) :
  let s' := run_events evs (started h w wants_color wants_depth) in
  exits_logged (worker s') = (if has_returned (pc s') then 1 else 0)%nat.
Proof.
  cbv zeta.
  assert (H : forall evs s,
             exits_logged (worker s) = (if has_returned (pc s) then 1 else 0)%nat ->
             exits_logged (worker (run_events evs s))
             = (if has_returned (pc (run_events evs s)) then 1 else 0)%nat).
  { clear. induction evs as [| ev evs IH]; intros s Hs; [exact Hs |].
    change (run_events (ev :: evs) s) with (run_events evs (step ev s)).
    apply IH. destruct ev as [io | | | |]; simpl.
    - apply worker_step_exits, Hs.
    - destruct (supervisor_leaves_alone (worker s)) as [_ (_ & _ & _ & _ & Hl)].
      unfold exits_logged in *. rewrite Hl. exact Hs.
    - unfold mark_get_pcd. destruct (negb _); exact Hs.
    - exact Hs.
    - destruct (supervisor_leaves_alone (worker s)) as [(_ & _ & _ & _ & Hl) _].
      unfold exits_logged in *. rewrite Hl. exact Hs. }
  apply H. reflexivity.
Qed.

(** ** A demand that arrives while the pipeline is being built *)

Lemma failure_logged_add_log e w :
  failure_logged (add_log e w) = failure_logged w || is_failure_entry e.
Proof.
  unfold failure_logged, add_log. simpl. rewrite existsb_app. simpl.
  rewrite orb_false_r. reflexivity.
Qed.

Lemma worker_step_keeps_failure_logged io s :
  failure_logged (worker s) = true -> failure_logged (worker (worker_step io s)) = true.
Proof.
  intro H.
  apply (run_events_keep_published (fun w => failure_logged w = true))
    with (evs := [WorkerStep io]); try (intros ? ? K; exact K); [| exact H].
  repeat split; try (intros ? ? K; exact K).
  intros e w K. rewrite failure_logged_add_log, K. reflexivity.
Qed.

(** X12. A demand can be missed. When the first [get_pcd] call falls between
    [_configure_pc] and the snapshot of the flag (lines 123 and 124), the
    pipeline has been built without the point-cloud stage but the snapshot
    already reads true. The loop test then never asks for a restart: however
    long the thread runs, either a pipeline lifetime has failed or the thread
    has ended (a failure or exit line is in the log), or the thread is still
    in the loop of that same pipeline and the point-cloud slot is what it
    was, although the demand flag is set. *)
Theorem demand_between_configure_and_snapshot_is_missed
    (w : Worker) (io_build io_start : device_io) (ios : list device_io) :
  user_wants_depth w = true ->
  running (manager w) = true ->
  get_pcd_was_invoked w = false ->
  failure_logged w = false ->
  sdk_error io_build = None ->
  sdk_error io_start = None ->
  let oak := pipeline_for w false in
  let s1 := worker_step io_build (mk_system w (Building 0)) in
  let s3 := worker_step io_start (step GetPcdCalled s1) in
  let s' := run_events (map WorkerStep ios) s3 in
  pc s1 = Configured 0 oak /\
  pcd_callback oak = false /\
  get_pcd_was_invoked (worker s3) = true /\
  pc s3 = LoopHead 0 oak true /\
  (failure_logged (worker s') = true \/
   (pcd (worker s') = pcd w /\
    (pc s' = LoopHead 0 oak true \/ pc s' = LoopBody 0 oak true))).
Proof.
  intros Hd Hr Hflag Hlog Hb Hs oak s1 s3 s'.
  assert (Hoak : pcd_callback oak = false).
  { unfold oak, pipeline_for. simpl. apply andb_false_r. }
  assert (E1 : s1 = mk_system w (Configured 0 oak)).
  { unfold s1, oak. rewrite (build_yields_pipeline_for 0 io_build w Hb).
    rewrite Hflag. reflexivity. }
  assert (E3 : s3 = mk_system (set_get_pcd_was_invoked true w) (LoopHead 0 oak true)).
  { unfold s3. rewrite E1. simpl. unfold mark_get_pcd. rewrite Hflag. simpl.
    unfold worker_step, resume, in_try, try_except_Exception, start_segment, bind, getf, ret.
    simpl. rewrite Hs. reflexivity. }
  split; [rewrite E1; reflexivity |].
  split; [exact Hoak |].
  split; [rewrite E3; reflexivity |].
  split; [rewrite E3; reflexivity |].
  assert (Inv : forall ios s,
             (failure_logged (worker s) = true \/
              (pcd (worker s) = pcd w /\
               running (manager (worker s)) = true /\
               get_pcd_was_invoked (worker s) = true /\
               (pc s = LoopHead 0 oak true \/ pc s = LoopBody 0 oak true))) ->
             let s' := run_events (map WorkerStep ios) s in
             failure_logged (worker s') = true \/
             (pcd (worker s') = pcd w /\
              (pc s' = LoopHead 0 oak true \/ pc s' = LoopBody 0 oak true))).
  { clear ios s'. induction ios as [| io ios IH]; intros s Hinv.
    - simpl. destruct Hinv as [Hf | (Hp & _ & _ & Hpc)]; [left; exact Hf | right; auto].
    - change (let s' := run_events (map WorkerStep ios) (worker_step io s) in
              failure_logged (worker s') = true \/
              (pcd (worker s') = pcd w /\
               (pc s' = LoopHead 0 oak true \/ pc s' = LoopBody 0 oak true))).
      apply IH. destruct Hinv as [Hf | (Hp & Hrun & Hfl & [Hpc | Hpc])].
      + left. apply worker_step_keeps_failure_logged, Hf.
      + right. destruct s as [ws p]. simpl in *. subst p.
        unfold worker_step, resume, in_try, try_except_Exception, head_segment, bind, getf, ret.
        simpl. rewrite Hrun, Hfl. simpl. auto.
      + destruct s as [ws p]. simpl in *. subst p.
        destruct (body_step_slots 0 oak true io ws) as (_ & _ & Hpcd).
        pose proof (round_without_pcd_callback oak io Hoak (pcd w) ws Hp) as Hkeep.
        simpl in Hkeep. rewrite <- Hpcd in Hkeep.
        pose proof (worker_step_static io (mk_system ws (LoopBody 0 oak true)))
          as (_ & _ & _ & _ & Hf' & Hr' & _). simpl in Hf', Hr'.
        change (worker_step io (mk_system ws (LoopBody 0 oak true)))
          with (resume (in_try 0 (body_segment 0 oak true io)) ws) in *.
        pose proof (pc_resume_in_try 0 (body_segment 0 oak true io) ws) as Hpc.
        destruct (body_segment 0 oak true io ws) as [[q | e] w1] eqn:E.
        * right. split; [exact Hkeep |]. split; [congruence |]. split; [congruence |].
          left. rewrite Hpc. unfold body_segment in E. do 2 bind_inv E.
          apply ret_Normal in E. destruct E as [<- _]. reflexivity.
        * left. unfold resume, in_try, try_except_Exception. rewrite E.
          destruct (isinstance_Exception e); simpl.
          -- rewrite failure_logged_add_log. apply orb_true_r.
          -- rewrite failure_logged_add_log. apply orb_true_r. }
  apply Inv. right. rewrite E3. simpl. repeat split; auto.
Qed.

(** ** Restart on a demand change: the statement (C4) *)

(** The poll of a round does not write the color slot. *)
Lemma poll_keeps_color oak io w :
  color_image (snd (_handle_depth_and_pcd_output oak io w)) = color_image w.
Proof.
  apply (preserves_handle_depth (fun w' => color_image w' = color_image w) oak io);
    try (intros ? ? K; exact K); [| reflexivity].
  intros e w0 _ K. exact K.
Qed.

(** C4 (as the code has it). The worker is not stopped and the demand flag
    has flipped to true while the loop runs a pipeline that was built and
    snapshotted before the flip. Then: the round in progress publishes no
    point cloud; at the loop test the loop is left (the SDK closing the old
    pipeline without error) and control is back in [run] with the worker
    unchanged; the next build and start, when the SDK lets them succeed,
    yield the same color and depth stages plus, exactly when depth is
    enabled in the configuration, the point-cloud stage and its callback,
    snapshotted with the flag true; and for the same device output a round
    of the rebuilt pipeline leaves in the color slot what a round of the old
    one would, and in the depth slot too when every point array of the round
    has at least three axes. *)
Theorem demand_flip_rebuilds_with_pc_stage
    (f : Z) (w : Worker) (io1 io2 io3 io4 io : device_io) :
  running (manager w) = true ->
  get_pcd_was_invoked w = true ->
  sdk_error io1 = None -> sdk_error io3 = None -> sdk_error io4 = None ->
  let old := pipeline_for w false in
  let new := pipeline_for w true in
  let after_old := worker (worker_step io (mk_system w (LoopBody f old false))) in
  let after_new := worker (worker_step io (mk_system w (LoopBody 0 new true))) in
  pcd after_old = pcd w /\
  worker_step io1 (mk_system w (LoopHead f old false)) = mk_system w RunLoop /\
  run_events [WorkerStep io2; WorkerStep io3; WorkerStep io4] (mk_system w RunLoop)
  = mk_system w (LoopHead 0 new true) /\
  pointcloud_component old = false /\ pcd_callback old = false /\
  pointcloud_component new = user_wants_depth w /\
  pcd_callback new = user_wants_depth w /\
  color_component new = color_component old /\
  stereo_component new = stereo_component old /\
  stereo_aligned new = stereo_aligned old /\
  depth_callback new = depth_callback old /\
  color_image after_new = color_image after_old /\
  (if forallb message_points_3d (polled io)
   then depth_map after_new = depth_map after_old
   else True).
Proof.
  intros Hr Hflag H1 H3 H4 old new after_old after_new.
  assert (Hold : pcd_callback old = false).
  { unfold old, pipeline_for; simpl. apply andb_false_r. }
  split.
  { unfold after_old.
    destruct (body_step_slots f old false io w) as (_ & _ & ->).
    apply (round_without_pcd_callback old io Hold (pcd w) w). reflexivity. }
  split.
  { unfold worker_step, resume, in_try, try_except_Exception, head_segment, bind, getf.
    simpl. rewrite Hr, Hflag, H1. reflexivity. }
  split.
  { clear Hold after_old after_new. subst old new.
    destruct w as [h wd wc wdp ci dm pc0 inv [nr r rc] lg sup].
    simpl in Hr, Hflag. subst r inv.
    destruct io3 as [e3 g3 c3 p3 pe3], io4 as [e4 g4 c4 p4 pe4].
    simpl in H3, H4. subst e3 e4.
    destruct wc, wdp; reflexivity. }
  split; [unfold old, pipeline_for; simpl; apply andb_false_r |].
  split; [exact Hold |].
  split; [unfold new, pipeline_for; simpl; apply andb_true_r |].
  split; [unfold new, pipeline_for; simpl; apply andb_true_r |].
  repeat (split; [reflexivity |]).
  unfold after_old, after_new.
  destruct (body_step_slots f old false io w) as (-> & -> & _).
  destruct (body_step_slots 0 new true io w) as (-> & -> & _).
  split.
  - unfold bind. destruct (_handle_color_output io w) as [[[] | e] w1]; [| reflexivity].
    rewrite !poll_keeps_color. reflexivity.
  - destruct (forallb message_points_3d (polled io)) eqn:Hio; [| exact I].
    assert (Hrel := related_rounds new old io eq_refl Hio w w (agree_refl w)).
    destruct Hrel as [(_ & _ & _ & _ & _ & Hdm & _) _]. exact Hdm.
Qed.

(** ** The supervisor (WorkerManager) *)

Lemma supervisor_step_at_flag_test w :
  supervisor_at_flag_test (supervisor_step w)
  = negb (supervisor_at_flag_test w) && running (manager w).
Proof.
  unfold supervisor_step. destruct (supervisor_at_flag_test w) eqn:E; [reflexivity |].
  destruct (running (manager w)); simpl; [reflexivity | exact E].
Qed.

Lemma supervisor_tick_at_flag_test w : supervisor_at_flag_test (supervisor_tick w) = false.
Proof.
  unfold supervisor_tick. destruct (supervisor_at_flag_test w) eqn:E.
  - rewrite supervisor_step_at_flag_test, E. reflexivity.
  - exact E.
Qed.

Lemma worker_step_supervisor_at_flag_test io s :
  supervisor_at_flag_test (worker (worker_step io s)) = supervisor_at_flag_test (worker s).
Proof.
  apply (worker_step_keeps_written
           (fun w => supervisor_at_flag_test w = supervisor_at_flag_test (worker s)));
    try (intros ? ? K; exact K); [| reflexivity].
  intros f oak prev. apply preserves_body.
  - apply preserves_handle_color. intros x w K. exact K.
  - apply preserves_handle_depth; [intros e w _ K; exact K | |]; intros x w K; exact K.
Qed.

Lemma step_factory_calls ev s :
  (reconfigure_calls (manager (worker s))
   <= reconfigure_calls (manager (worker (step ev s))))%nat /\
  (factory_calls_bound (worker (step ev s)) <= factory_calls_bound (worker s))%nat.
Proof.
  unfold factory_calls_bound. destruct ev as [io | | | |]; simpl.
  - destruct (worker_step_static io s) as (_ & _ & _ & _ & _ & Hr & Hc).
    rewrite Hr, Hc, worker_step_supervisor_at_flag_test. lia.
  - rewrite supervisor_tick_manager, supervisor_tick_at_flag_test.
    destruct (flag_test_fields (manager (worker s))) as (_ & F2 & F3).
    destruct (run_iteration_fields (manager (worker s))) as (_ & R2 & R3).
    destruct (supervisor_at_flag_test (worker s)); rewrite ?F2, ?F3, ?R2, ?R3;
      destruct (running (manager (worker s))), (needs_reconfigure (manager (worker s)));
      simpl; lia.
  - unfold mark_get_pcd. destruct (negb _); simpl; lia.
  - destruct (running (manager (worker s))), (supervisor_at_flag_test (worker s)); simpl; lia.
  - rewrite supervisor_step_manager, supervisor_step_at_flag_test.
    destruct (flag_test_fields (manager (worker s))) as (_ & F2 & F3).
    destruct (supervisor_at_flag_test (worker s)); rewrite ?F2, ?F3;
      destruct (running (manager (worker s))), (needs_reconfigure (manager (worker s)));
      simpl; lia.
Qed.

Lemma run_events_factory_calls (evs : list event) :
  forall s,
    (reconfigure_calls (manager (worker s))
     <= reconfigure_calls (manager (worker (run_events evs s))))%nat /\
    (factory_calls_bound (worker (run_events evs s)) <= factory_calls_bound (worker s))%nat.
Proof.
  induction evs as [| ev evs IH]; intro s; simpl; [lia |].
  destruct (IH (step ev s)) as [H1 H2].
  destruct (step_factory_calls ev s) as [H3 H4].
  fold (run_events evs (step ev s)) in *. lia.
Qed.

(** X1. Whatever the events and whatever the state they start from, the
    replacement factory is called at most once more, and not at all when the
    supervisor's running flag is false and the supervisor thread stands at
    its loop test; a supervisor that has passed the loop test can still make
    its one call after the flag was lowered. The count of calls never goes
    down. *)
Theorem factory_called_at_most_once (evs : list event) (s : system) :
  let s' := run_events evs s in
  (reconfigure_calls (manager (worker s)) <= reconfigure_calls (manager (worker s')))%nat /\
  (reconfigure_calls (manager (worker s'))
   <= reconfigure_calls (manager (worker s))
      + (if running (manager (worker s)) || supervisor_at_flag_test (worker s)
         then 1 else 0))%nat.
Proof.
  cbv zeta. destruct (run_events_factory_calls evs s) as [H1 H2].
  split; [exact H1 |].
  unfold factory_calls_bound in H2.
  destruct (running (manager (worker (run_events evs s)))
            || supervisor_at_flag_test (worker (run_events evs s))); lia.
Qed.

(** X2. A running supervisor that finds the reconfiguration flag set calls
    the factory once and stops itself, and its further iterations do
    nothing; one that finds the flag clear changes nothing, however often it
    looks. *)
Theorem supervisor_reconfigures_once (n : nat) (m : WorkerManager) :
  running m = true ->
  (1 <= n)%nat ->
  Nat.iter n WorkerManager_run_iteration m
  = if needs_reconfigure m
    then mk_WorkerManager true false (S (reconfigure_calls m))
    else m.
Proof.
  intros Hr Hn. destruct n as [| n]; [lia |]. clear Hn.
  destruct m as [nr r rc]. simpl in Hr. subst r.
  induction n as [| n IH].
  - destruct nr; reflexivity.
  - change (Nat.iter (S (S n)) WorkerManager_run_iteration (mk_WorkerManager nr true rc))
      with (WorkerManager_run_iteration
              (Nat.iter (S n) WorkerManager_run_iteration (mk_WorkerManager nr true rc))).
    rewrite IH. destruct nr; reflexivity.
Qed.

(** ** A requested reconfiguration, carried through *)

(** X18. From the moment the reconfiguration flag is set while the supervisor
    runs, the mechanism completes: the supervisor's next look calls the
    factory and lowers the running flag, the worker thread returns from
    [run] within four more of its segments, and the factory has then been
    called exactly once more. *)
Theorem requested_reconfiguration_is_carried_through (evs : list event) (s : system) :
  needs_reconfigure (manager (worker s)) = true ->
  running (manager (worker s)) = true ->
  is_Crashed (pc s) = false ->
  forallb event_errors_are_Exceptions evs = true ->
  (4 <= worker_steps evs)%nat ->
  let s' := run_events evs (step ManagerTick s) in
  pc s' = Stopped /\
  running (manager (worker s')) = false /\
  reconfigure_calls (manager (worker s')) = S (reconfigure_calls (manager (worker s))).
Proof.
  intros Hn Hr Hc Hevs Hsteps s'.
  assert (Htick : manager (worker (step ManagerTick s))
                  = mk_WorkerManager true false (S (reconfigure_calls (manager (worker s))))).
  { simpl. rewrite supervisor_tick_manager.
    unfold WorkerManager_run_iteration, WorkerManager_flag_test. rewrite Hr, Hn.
    destruct (manager (worker s)) as [nr r rc]. simpl in *. subst nr.
    destruct (supervisor_at_flag_test (worker s)); reflexivity. }
  assert (Hr1 : running (manager (worker (step ManagerTick s))) = false)
    by (rewrite Htick; reflexivity).
  assert (Hat : supervisor_at_flag_test (worker (step ManagerTick s)) = false)
    by apply supervisor_tick_at_flag_test.
  split.
  { apply run_events_reaches_Stopped; try assumption.
    simpl. destruct (pc s); simpl; lia. }
  split.
  { apply run_events_running_false, Hr1. }
  destruct (run_events_factory_calls evs (step ManagerTick s)) as [Hlo Hhi].
  fold s' in Hlo, Hhi. unfold factory_calls_bound in Hhi.
  rewrite Hr1, Hat in Hhi. rewrite Htick in Hlo, Hhi.
  cbn [reconfigure_calls orb] in Hlo, Hhi.
  destruct (running (manager (worker s')) || supervisor_at_flag_test (worker s')); lia.
Qed.

End WorkerThread.

(** ** The theorems at concrete inputs *)

Lemma resize_nearest_gives_dsize : resize_gives_dsize resize_nearest.
Proof.
  intros src dst w h Hdim. unfold resize_nearest, ndim in *.
  destruct (shape src) as [| rows [| cols [| c rest]]]; try discriminate Hdim.
  destruct (_ && _); intro H; inversion H. reflexivity.
Qed.

(** An exception that is not an [Exception] is not caught: it leaves [run]. *)
Example keyboard_interrupt_leaves_run :
  pc (worker_step cvtColor_reverse_channels resize_nearest
        (mk_device_io (Some KeyboardInterrupt) (Normal None) 0 [] None)
        (mk_system (Worker_init 400 640 true true) (Building 0)))
  = Crashed KeyboardInterrupt.
Proof. reflexivity. Qed.

(** C3 (counterexample without the depth guard). Depth disabled, demand flag true: the BUILDING
    phase completes without the point-cloud stage. *)
Lemma pc_stage_absent_when_depth_disabled :
  let w := mark_get_pcd (Worker_init 400 640 true false) in
  get_pcd_was_invoked w = true /\
  exists oak,
    worker_step cvtColor_reverse_channels resize_nearest quiet_io (mk_system w (Building 0))
    = mk_system w (Configured 0 oak) /\
    pointcloud_component oak = false /\
    pointcloud_component oak <> get_pcd_was_invoked w.
Proof.
  split; [reflexivity |].
  exists (mk_OakCamera true false false false false false).
  repeat split. discriminate.
Qed.

(** C3 at a worker with depth enabled and the flag set. *)
Lemma pc_stage_built_witness :
  exists oak,
    worker_step cvtColor_reverse_channels resize_nearest quiet_io
      (mk_system (mark_get_pcd (Worker_init 400 640 true true)) (Building 0))
    = mk_system (mark_get_pcd (Worker_init 400 640 true true)) (Configured 0 oak) /\
    pointcloud_component oak = true /\
    pcd_callback oak = true.
Proof.
  apply (pc_stage_built_iff_depth_enabled_and_requested
           cvtColor_reverse_channels resize_nearest 0 quiet_io
           (mk_system (mark_get_pcd (Worker_init 400 640 true true)) (Building 0)));
    reflexivity.
Defined.

(** C4 (counterexample without the depth guard). Color only: the demand flag flips while the
    loop is RUNNING; the loop is left and the pipeline is rebuilt, but the
    rebuilt pipeline has no point-cloud stage and no point-cloud callback,
    and its snapshot already equals the flag, so no further rebuild follows. *)
Lemma rebuild_without_pc_stage_when_depth_disabled :
  let run := run_events cvtColor_reverse_channels resize_nearest in
  let s1 := run (quiet_steps 3) (started 400 640 true false) in
  let s2 := run (GetPcdCalled :: quiet_steps 4) s1 in
  pc s1 = LoopHead 0 (mk_OakCamera true false false false false false) false /\
  get_pcd_was_invoked (worker s1) = false /\
  get_pcd_was_invoked (worker s2) = true /\
  pc s2 = LoopHead 0 (mk_OakCamera true false false false false false) true /\
  pc (run (quiet_steps 1) s2)
  = LoopBody 0 (mk_OakCamera true false false false false false) true.
Proof. repeat split. Qed.

(** C4 at a worker with color and depth; in the round the device delivers a
    color frame, a depth frame and a point array. *)
Lemma demand_flip_rebuilds_witness :
  let w := mark_get_pcd (Worker_init 400 640 true true) in
  let io := full_round preview_frame_400x640 2 depth_frame_800p 7 points_800p 8 in
  let old := pipeline_for w false in
  let new := pipeline_for w true in
  let after_old := worker (worker_step cvtColor_reverse_channels resize_nearest io
                             (mk_system w (LoopBody 0 old false))) in
  let after_new := worker (worker_step cvtColor_reverse_channels resize_nearest io
                             (mk_system w (LoopBody 0 new true))) in
  pcd after_old = pcd w /\
  worker_step cvtColor_reverse_channels resize_nearest quiet_io
    (mk_system w (LoopHead 0 old false)) = mk_system w RunLoop /\
  run_events cvtColor_reverse_channels resize_nearest
    [WorkerStep quiet_io; WorkerStep quiet_io; WorkerStep quiet_io] (mk_system w RunLoop)
  = mk_system w (LoopHead 0 new true) /\
  pointcloud_component old = false /\ pcd_callback old = false /\
  pointcloud_component new = user_wants_depth w /\
  pcd_callback new = user_wants_depth w /\
  color_component new = color_component old /\
  stereo_component new = stereo_component old /\
  stereo_aligned new = stereo_aligned old /\
  depth_callback new = depth_callback old /\
  color_image after_new = color_image after_old /\
  (if forallb message_points_3d (polled io)
   then depth_map after_new = depth_map after_old
   else True).
Proof.
  apply (demand_flip_rebuilds_with_pc_stage
           cvtColor_reverse_channels resize_nearest 0
           (mark_get_pcd (Worker_init 400 640 true true))
           quiet_io quiet_io quiet_io quiet_io
           (full_round preview_frame_400x640 2 depth_frame_800p 7 points_800p 8));
    reflexivity.
Defined.

(** In that round both pipelines publish the color and the depth frame, and
    only the rebuilt one the point cloud. *)
Example rebuilt_pipeline_publishes_all_three :
  let w := mark_get_pcd (Worker_init 400 640 true true) in
  let io := full_round preview_frame_400x640 2 depth_frame_800p 7 points_800p 8 in
  let stamps := fun w' => (option_map captured_at (color_image w'),
                           option_map captured_at (depth_map w'),
                           option_map captured_at (pcd w')) in
  stamps (worker (worker_step cvtColor_reverse_channels resize_nearest io
                    (mk_system w (LoopBody 0 (pipeline_for w false) false))))
  = (Some 2, Some 7, None) /\
  stamps (worker (worker_step cvtColor_reverse_channels resize_nearest io
                    (mk_system w (LoopBody 0 (pipeline_for w true) true))))
  = (Some 2, Some 7, Some 8).
Proof. split; reflexivity. Qed.

(** A flat point array above the ceiling, delivered ahead of a depth frame:
    on the rebuilt pipeline its publish raises [IndexError] and the depth
    frame behind it is not delivered, while the old pipeline, which has no
    point-cloud callback, stores the depth frame. *)
Example flat_point_array_cuts_the_poll_short :
  let w := mark_get_pcd (Worker_init 400 640 true true) in
  let io := mk_device_io None (Normal None) 0
              [(PointcloudMessage {| points := points_flat |}, 5);
               (DepthMessage {| frame := depth_frame_400x640 |}, 6)] None in
  forallb message_points_3d (polled io) = false /\
  option_map captured_at
    (depth_map (worker (worker_step cvtColor_reverse_channels resize_nearest io
                          (mk_system w (LoopBody 0 (pipeline_for w false) false)))))
  = Some 6 /\
  depth_map (worker (worker_step cvtColor_reverse_channels resize_nearest io
                       (mk_system w (LoopBody 0 (pipeline_for w true) true))))
  = None.
Proof. repeat split. Qed.

(** C5 at a color-only worker stopped in its capture loop. *)
Lemma accessors_resolve_after_stop_witness :
  let run := run_events cvtColor_reverse_channels resize_nearest in
  let alive := worker (run (quiet_steps 4) (started 400 640 true false)) in
  let w := worker (run (quiet_steps 2)
                     (step cvtColor_reverse_channels resize_nearest StopCalled
                           (run (quiet_steps 4) (started 400 640 true false)))) in
  running (manager w) = false /\
  get_color_image ([alive; alive] ++ w :: [alive]) = Resolved (color_image w) /\
  get_depth_map ([alive] ++ w :: [alive]) = Resolved (depth_map w) /\
  get_pcd_await ([] ++ w :: [alive]) = Resolved (pcd w) /\
  (color_image w = None -> get_color_image ([alive; alive] ++ w :: [alive]) = Resolved None) /\
  (depth_map w = None -> get_depth_map ([alive] ++ w :: [alive]) = Resolved None) /\
  (pcd w = None -> get_pcd_await ([] ++ w :: [alive]) = Resolved None).
Proof.
  apply (accessors_resolve_after_stop
           cvtColor_reverse_channels resize_nearest
           (run_events cvtColor_reverse_channels resize_nearest (quiet_steps 4)
                       (started 400 640 true false))
           (quiet_steps 2));
    reflexivity.
Defined.

(** C6 at three calls on a fresh worker. *)
Lemma mark_get_pcd_witness :
  let s := started 400 640 true true in
  let stp := step cvtColor_reverse_channels resize_nearest in
  let run := run_events cvtColor_reverse_channels resize_nearest in
  run (repeat GetPcdCalled 3) s = stp GetPcdCalled s /\
  get_pcd_was_invoked (worker (stp GetPcdCalled s)) = true /\
  stp GetPcdCalled (stp GetPcdCalled s) = stp GetPcdCalled s /\
  get_pcd_was_invoked (worker (run (quiet_steps 5) (stp GetPcdCalled s))) = true.
Proof.
  apply (mark_get_pcd_idempotent_monotonic
           cvtColor_reverse_channels resize_nearest 3 (started 400 640 true true)
           (quiet_steps 5)).
  lia.
Defined.

(** C8 (counterexample to the bound). A 1080p point array of 24883200 bytes exceeds
    the ceiling; the frame stored is its 540 x 960 x 3 subsample, of 6220800
    bytes, which exceeds the ceiling as well. *)
Lemma subsampled_1080p_exceeds_ceiling :
  let w := snd (_set_pcd {| points := points_1080p |} 0 (Worker_init 1080 1920 true true)) in
  nbytes points_1080p = 24883200 /\
  nbytes points_1080p > MAX_GRPC_MESSAGE_BYTE_COUNT /\
  option_map (fun f => shape (np_array f)) (pcd w) = Some [540; 960; 3] /\
  option_map (fun f => nbytes (np_array f)) (pcd w) = Some 6220800 /\
  ~ (6220800 <= MAX_GRPC_MESSAGE_BYTE_COUNT).
Proof.
  repeat split. unfold MAX_GRPC_MESSAGE_BYTE_COUNT. lia.
Qed.

(** C8 at an 800 x 1280 x 3 float32 point array: 12288000 bytes stored as 3072000. *)
Lemma set_pcd_800p_witness :
  let raw := points {| points := points_800p |} in
  let r := _set_pcd {| points := points_800p |} 5 (Worker_init 400 640 true true) in
  fst r = Normal tt /\
  exists f,
    pcd (snd r) = Some f /\ captured_at f = 5 /\
    itemsize (np_array f) = itemsize raw /\
    if nbytes raw >? MAX_GRPC_MESSAGE_BYTE_COUNT then
      shape (np_array f) = [step2_len 800; step2_len 1280; 3] /\
      (forall i j k, item (np_array f) [i; j; k] = item raw [2 * i; 2 * j; k]) /\
      nbytes (np_array f) = step2_len 800 * step2_len 1280 * 3 * itemsize raw /\
      4 * nbytes (np_array f) = (800 + 800 mod 2) * (1280 + 1280 mod 2) * 3 * itemsize raw /\
      (800 mod 2 = 0 -> 1280 mod 2 = 0 ->
       nbytes raw <= 4 * MAX_GRPC_MESSAGE_BYTE_COUNT ->
       nbytes (np_array f) <= MAX_GRPC_MESSAGE_BYTE_COUNT)
    else np_array f = raw.
Proof.
  apply (set_pcd_stores_one_2x_subsample
           {| points := points_800p |} 5 (Worker_init 400 640 true true) 800 1280 3).
  reflexivity.
Defined.

(** C9 at a capture round that fails with a RuntimeError. *)
Lemma device_exceptions_witness :
  let s := run_events cvtColor_reverse_channels resize_nearest (quiet_steps 4)
                      (started 400 640 true true) in
  let s' := worker_step cvtColor_reverse_channels resize_nearest
              (failing_io (RuntimeError "X_LINK_ERROR")) s in
  is_Crashed (pc s) = false /\
  is_Crashed (pc s') = false /\
  match fst (segment cvtColor_reverse_channels resize_nearest (pc s)
               (failing_io (RuntimeError "X_LINK_ERROR")) (worker s)) with
  | Normal _ => True
  | Raised e =>
      isinstance_Exception e = true /\
      pc s' = RunLoop /\
      running (manager (worker s')) = running (manager (worker s)) /\
      reconfigure_calls (manager (worker s')) = reconfigure_calls (manager (worker s)) /\
      (needs_reconfigure (manager (worker s')) = needs_reconfigure (manager (worker s)) \/
       needs_reconfigure (manager (worker s')) = true)
  end.
Proof.
  apply (device_exceptions_stay_in_pipeline_loop
           cvtColor_reverse_channels resize_nearest
           (quiet_steps 4) (started 400 640 true true)
           (failing_io (RuntimeError "X_LINK_ERROR")));
    reflexivity.
Defined.

(** C10 (counterexample with a third axis). A depth packet whose frame has a
    channel axis, 800 x 1280 x 3: its shape differs from (400, 640), the
    resize to (640, 400) keeps the channel axis as [cv2.resize] does, and the
    frame published has shape (400, 640, 3), not (height, width). *)
Lemma depth_frame_with_channel_axis_keeps_it :
  let p := {| frame := depth_frame_colorized |} in
  let w0 := Worker_init 400 640 true true in
  let r := _set_depth_map resize_nearest p 5 w0 in
  shape (frame p) = [800; 1280; 3] /\
  fst r = Normal tt /\
  option_map (fun f => shape (np_array f)) (depth_map (snd r)) = Some [400; 640; 3] /\
  [400; 640; 3] <> [height w0; width w0].
Proof. repeat split. discriminate. Qed.

(** C10 at a run that resizes an 800 x 1280 frame, and at a call of the
    publish step on such a frame. *)
Lemma depth_frames_shape_witness :
  let p := {| frame := depth_frame_800p |} in
  let w0 := Worker_init 400 640 true true in
  let w := worker (run_events cvtColor_reverse_channels resize_nearest
                     (quiet_steps 4 ++ [WorkerStep (depth_round depth_frame_800p 11)])
                     (started 400 640 true true)) in
  match depth_map w with
  | None => True
  | Some f => shape (np_array f) = [400; 640]
  end /\
  match fst (_set_depth_map resize_nearest p 12 w0) with
  | Normal _ =>
      exists f, depth_map (snd (_set_depth_map resize_nearest p 12 w0)) = Some f /\
                shape (np_array f) = [height w0; width w0] /\
                captured_at f = 12 /\
                (shape (frame p) = [height w0; width w0] -> np_array f = frame p)
  | Raised _ => depth_map (snd (_set_depth_map resize_nearest p 12 w0)) = depth_map w0
  end /\
  _set_depth_map resize_nearest p 12 w0
  = (if shape_eqb (shape (frame p)) [height w0; width w0]
     then (Normal tt, set_depth_map (Some (mk_CapturedData (frame p) 12)) w0)
     else match resize_nearest (frame p) (width w0, height w0) with
          | Some dst =>
              (Normal tt,
               set_depth_map (Some (mk_CapturedData dst 12))
                             (add_log (LogShapeMismatch (shape (frame p))) w0))
          | None =>
              (Raised cv2_error, add_log (LogShapeMismatch (shape (frame p))) w0)
          end) /\
  match resize_nearest (frame p) (width w0, height w0) with
  | Some dst => shape dst = [height w0; width w0]
  | None => True
  end.
Proof.
  apply (depth_frames_have_configured_shape
           cvtColor_reverse_channels resize_nearest
           (quiet_steps 4 ++ [WorkerStep (depth_round depth_frame_800p 11)])
           400 640 true true
           {| frame := depth_frame_800p |} 12 (Worker_init 400 640 true true));
    [exact resize_nearest_gives_dsize | reflexivity | reflexivity].
Defined.

(** The call of the witness takes the resize: the mismatch is logged and the
    slot holds a 400 x 640 frame stamped 12. *)
Example set_depth_map_800p_is_resized :
  let r := _set_depth_map resize_nearest {| frame := depth_frame_800p |} 12
                          (Worker_init 400 640 true true) in
  fst r = Normal tt /\
  log (snd r) = [LogShapeMismatch [800; 1280]] /\
  option_map (fun f => (shape (np_array f), captured_at f)) (depth_map (snd r))
  = Some ([400; 640], 12).
Proof. repeat split. Qed.

(** The frame a depth round leaves in the slot after a resize from 800 x 1280. *)
Example depth_round_800p_is_resized :
  option_map (fun f => (shape (np_array f), captured_at f))
    (depth_map (worker (run_events cvtColor_reverse_channels resize_nearest
                          (quiet_steps 4 ++ [WorkerStep (depth_round depth_frame_800p 11)])
                          (started 400 640 true true))))
  = Some ([400; 640], 11).
Proof. reflexivity. Qed.

(** Before the rebuild a point array from the device is not published; after
    the demand flag has flipped and the pipeline is rebuilt, it is. *)
Example point_cloud_published_only_after_rebuild :
  let run := run_events cvtColor_reverse_channels resize_nearest in
  let before := run (quiet_steps 4 ++ [WorkerStep (pcd_round points_800p 8)])
                    (started 400 640 true true) in
  let after := run (quiet_steps 3 ++ [GetPcdCalled] ++ quiet_steps 5 ++
                    [WorkerStep (pcd_round points_800p 9)])
                   (started 400 640 true true) in
  pcd (worker before) = None /\
  option_map (fun f => (shape (np_array f), captured_at f)) (pcd (worker after))
  = Some ([400; 640; 3], 9).
Proof. split; reflexivity. Qed.

(** ** The further properties at concrete inputs *)

(** X2 at three looks of a supervisor whose flag is set. *)
Lemma supervisor_reconfigures_once_witness :
  Nat.iter 3 WorkerManager_run_iteration (mk_WorkerManager true true 0)
  = if needs_reconfigure (mk_WorkerManager true true 0)
    then mk_WorkerManager true false (S (reconfigure_calls (mk_WorkerManager true true 0)))
    else mk_WorkerManager true true 0.
Proof.
  apply (supervisor_reconfigures_once 3 (mk_WorkerManager true true 0)); [reflexivity | lia].
Defined.

(** X3 at a worker stopped in its capture loop. *)
Lemma worker_thread_stops_witness :
  pc (run_events cvtColor_reverse_channels resize_nearest (quiet_steps 4)
        (step cvtColor_reverse_channels resize_nearest StopCalled
           (run_events cvtColor_reverse_channels resize_nearest (quiet_steps 4)
              (started 400 640 true true))))
  = Stopped.
Proof.
  apply (worker_thread_stops_after_stop cvtColor_reverse_channels resize_nearest
           (quiet_steps 4)
           (run_events cvtColor_reverse_channels resize_nearest (quiet_steps 4)
              (started 400 640 true true)));
    [reflexivity | reflexivity | simpl; lia].
Defined.


(** X5 at a worker with color and depth. *)
Lemma build_follows_configuration_witness :
  let s := mk_system (Worker_init 400 640 true true) (Building 0) in
  let w := worker s in
  let oak := pipeline_for w (get_pcd_was_invoked w) in
  worker_step cvtColor_reverse_channels resize_nearest quiet_io s
  = mk_system w (Configured 0 oak) /\
  color_component oak = user_wants_color w /\
  stereo_component oak = user_wants_depth w /\
  stereo_aligned oak = user_wants_depth w && user_wants_color w /\
  depth_callback oak = stereo_component oak /\
  pcd_callback oak = pointcloud_component oak /\
  implb (pointcloud_component oak) (stereo_component oak) = true /\
  implb (stereo_aligned oak) (color_component oak) = true.
Proof.
  apply (build_follows_configuration cvtColor_reverse_channels resize_nearest 0 quiet_io
           (mk_system (Worker_init 400 640 true true) (Building 0)));
    reflexivity.
Defined.

(** X6 at a preview frame that the conversion rejects, with a depth frame
    waiting in the poll. *)
Lemma color_failure_ends_the_round_witness :
  let w := Worker_init 400 640 true true in
  let io := mk_device_io None (Normal (Some depth_frame_800p)) 3
                         [(DepthMessage {| frame := depth_frame_400x640 |}, 4)] None in
  let s' := worker_step cvtColor_reverse_channels resize_nearest io
              (mk_system w (LoopBody 0 (pipeline_for w false) false)) in
  pc s' = RunLoop /\
  color_image (worker s') = color_image w /\
  depth_map (worker s') = depth_map w /\
  pcd (worker s') = pcd w /\
  log (worker s') = log w ++ [if 0 + 1 >? MAX_PIPELINE_FAILURES
                              then LogReachedMaxFailures
                              else LogFailureCount (0 + 1)] /\
  needs_reconfigure (manager (worker s'))
  = (0 + 1 >? MAX_PIPELINE_FAILURES) || needs_reconfigure (manager w).
Proof.
  apply (color_failure_ends_the_round cvtColor_reverse_channels resize_nearest
           0 (pipeline_for (Worker_init 400 640 true true) false) false
           (mk_device_io None (Normal (Some depth_frame_800p)) 3
                         [(DepthMessage {| frame := depth_frame_400x640 |}, 4)] None)
           (Worker_init 400 640 true true) cv2_error);
    reflexivity.
Defined.

(** X7 at a worker with neither modality and a device that fails. *)
Lemma idle_worker_loop_witness :
  let w := Worker_init 400 640 false false in
  let s' := run_events cvtColor_reverse_channels resize_nearest
              (map WorkerStep [failing_io (RuntimeError "X_LINK_ERROR"); quiet_io;
                               failing_io (RuntimeError "X_LINK_ERROR")])
              (mk_system w (LoopHead 0 OakCamera_new (get_pcd_was_invoked w))) in
  worker s' = w /\
  (pc s' = LoopHead 0 OakCamera_new (get_pcd_was_invoked w) \/
   pc s' = LoopBody 0 OakCamera_new (get_pcd_was_invoked w)).
Proof.
  apply (idle_worker_loop_has_no_effect cvtColor_reverse_channels resize_nearest
           0 OakCamera_new
           [failing_io (RuntimeError "X_LINK_ERROR"); quiet_io;
            failing_io (RuntimeError "X_LINK_ERROR")]
           (Worker_init 400 640 false false));
    reflexivity.
Defined.

(** X10 at two polls of a color-only worker. *)
Lemma depth_accessors_wait_witness :
  get_depth_map (observations cvtColor_reverse_channels resize_nearest 400 640 true false
                   [quiet_steps 4; quiet_steps 6 ++ [WorkerStep (depth_round depth_frame_800p 3)]])
  = Pending /\
  get_pcd_await (observations cvtColor_reverse_channels resize_nearest 400 640 true false
                   [quiet_steps 4; quiet_steps 6 ++ [WorkerStep (depth_round depth_frame_800p 3)]])
  = Pending.
Proof.
  apply (depth_accessors_wait_while_depth_disabled cvtColor_reverse_channels resize_nearest
           400 640 true
           [quiet_steps 4; quiet_steps 6 ++ [WorkerStep (depth_round depth_frame_800p 3)]]).
  reflexivity.
Defined.

(** X12 at a worker with color and depth, the device delivering a point
    array that nobody receives. *)
Lemma demand_missed_witness :
  let w := Worker_init 400 640 true true in
  let oak := pipeline_for w false in
  let s1 := worker_step cvtColor_reverse_channels resize_nearest quiet_io
              (mk_system w (Building 0)) in
  let s3 := worker_step cvtColor_reverse_channels resize_nearest quiet_io
              (step cvtColor_reverse_channels resize_nearest GetPcdCalled s1) in
  let s' := run_events cvtColor_reverse_channels resize_nearest
              (map WorkerStep [quiet_io; pcd_round points_800p 5; quiet_io]) s3 in
  pc s1 = Configured 0 oak /\
  pcd_callback oak = false /\
  get_pcd_was_invoked (worker s3) = true /\
  pc s3 = LoopHead 0 oak true /\
  (failure_logged (worker s') = true \/
   (pcd (worker s') = pcd w /\
    (pc s' = LoopHead 0 oak true \/ pc s' = LoopBody 0 oak true))).
Proof.
  apply (demand_between_configure_and_snapshot_is_missed
           cvtColor_reverse_channels resize_nearest
           (Worker_init 400 640 true true) quiet_io quiet_io
           [quiet_io; pcd_round points_800p 5; quiet_io]);
    reflexivity.
Defined.

(** X13 at a KeyboardInterrupt during the build. *)
Lemma uncaught_exception_witness :
  let s := mk_system (Worker_init 400 640 true true) (Building 0) in
  let io := mk_device_io (Some KeyboardInterrupt) (Normal None) 0 [] None in
  let s' := worker_step cvtColor_reverse_channels resize_nearest io s in
  s' = mk_system (add_log LogExitedThread (Worker_init 400 640 true true))
                 (Crashed KeyboardInterrupt) /\
  manager (worker s') = manager (worker s) /\
  worker_step cvtColor_reverse_channels resize_nearest quiet_io s' = s' /\
  WorkerManager_run_iteration (manager (worker s'))
  = WorkerManager_run_iteration (manager (worker s)).
Proof.
  apply (uncaught_exception_ends_the_thread cvtColor_reverse_channels resize_nearest
           (mk_device_io (Some KeyboardInterrupt) (Normal None) 0 [] None) quiet_io
           (mk_system (Worker_init 400 640 true true) (Building 0))
           KeyboardInterrupt (Worker_init 400 640 true true));
    reflexivity.
Defined.

(** X15 at a flat list of 400000 points, 4800000 bytes. *)
Lemma set_pcd_of_flat_points_witness :
  _set_pcd {| points := points_flat |} 6 (Worker_init 400 640 true true)
  = if nbytes (points {| points := points_flat |}) >? MAX_GRPC_MESSAGE_BYTE_COUNT
    then (Raised IndexError,
          add_log (LogPcdSubsampling (nbytes (points {| points := points_flat |})))
                  (Worker_init 400 640 true true))
    else (Normal tt,
          set_pcd (Some (mk_CapturedData (points {| points := points_flat |}) 6))
                  (Worker_init 400 640 true true)).
Proof.
  apply (set_pcd_of_flat_points {| points := points_flat |} 6 (Worker_init 400 640 true true)).
  unfold ndim. simpl. lia.
Defined.


(** X18 at a worker in its capture loop whose flag has been set. *)
Lemma requested_reconfiguration_witness :
  let s := mk_system (set_manager (mk_WorkerManager true true 0)
                                  (Worker_init 400 640 true true))
                     (LoopBody 0 (pipeline_for (Worker_init 400 640 true true) false) false) in
  let s' := run_events cvtColor_reverse_channels resize_nearest (quiet_steps 4)
              (step cvtColor_reverse_channels resize_nearest ManagerTick s) in
  pc s' = Stopped /\
  running (manager (worker s')) = false /\
  reconfigure_calls (manager (worker s')) = S (reconfigure_calls (manager (worker s))).
Proof.
  apply (requested_reconfiguration_is_carried_through
           cvtColor_reverse_channels resize_nearest (quiet_steps 4)
           (mk_system (set_manager (mk_WorkerManager true true 0)
                                   (Worker_init 400 640 true true))
                      (LoopBody 0 (pipeline_for (Worker_init 400 640 true true) false) false)));
    first [reflexivity | simpl; lia].
Defined.

(** In the run of X12 the device does deliver a point array and the demand
    flag is set, yet nothing has failed and the slot is still empty. *)
Example missed_demand_leaves_the_slot_empty :
  let w := Worker_init 400 640 true true in
  let s3 := run_events cvtColor_reverse_channels resize_nearest
              [WorkerStep quiet_io; GetPcdCalled; WorkerStep quiet_io]
              (mk_system w (Building 0)) in
  let s' := run_events cvtColor_reverse_channels resize_nearest
              (map WorkerStep [quiet_io; pcd_round points_800p 5; quiet_io]) s3 in
  get_pcd_was_invoked (worker s') = true /\
  failure_logged (worker s') = false /\
  pcd (worker s') = None.
Proof. repeat split. Qed.

(** The call X1 allows after the flag was lowered: the supervisor passes its
    loop test, [stop()] falls before its flag test, and the factory is still
    called once, with [running] already false. *)
Example factory_called_after_stop :
  let stp := step cvtColor_reverse_channels resize_nearest in
  let s0 := mk_system (set_manager (mk_WorkerManager true true 0)
                                   (Worker_init 400 640 true true)) RunLoop in
  let s2 := stp StopCalled (stp ManagerStep s0) in
  let s3 := stp ManagerStep s2 in
  running (manager (worker s2)) = false /\
  reconfigure_calls (manager (worker s2)) = 0%nat /\
  reconfigure_calls (manager (worker s3)) = 1%nat /\
  reconfigure_calls (manager (worker (stp ManagerStep (stp ManagerStep s3)))) = 1%nat.
Proof. repeat split. Qed.
